(** * A shallow embedding of [english_translator.py]

    The real-time translator records audio in fixed-size blocks, hands
    them over a FIFO queue to a processing worker, and for each block runs
    a speech recogniser (an external process fed through a temporary WAV
    file) and a translation request (HTTP), printing the result.

    The embedding follows the source function by function:
    - numeric code ([int(a * b / c)], [(x * 32767).astype(np.int16)]) is
      modelled on IEEE-754 values with the operations of [SpecFloat];
    - code with side effects lives in a small monad threading the file
      system, collecting the I/O performed, and propagating Python
      exceptions;
    - the three threads (control, recorder, processor) are a labelled
      transition system over one shared state. *)

From Stdlib Require Import ZArith List Bool Lia Ascii String.
From Stdlib Require Import SpecFloat.
From stdpp Require Import gmap strings list.

Local Open Scope Z_scope.
Local Open Scope string_scope.

(** ** Python values used by the program *)

Module Py.

(** Exceptions that the modelled calls raise.  All of them derive from
    Python's [Exception], so an [except Exception] clause catches each;
    [sys.exit] is kept apart (see [res]). *)
Inductive exn :=
| TimeoutExpired                      (* subprocess.TimeoutExpired *)
| CalledProcessError (returncode : Z) (* subprocess.run(..., check=True) *)
| OSError (msg : string)
| UnboundLocalError (var : string)
| ZeroDivisionError
| OverflowError
| ValueError (msg : string)
| KeyError (key : string)
| RequestException (msg : string)     (* requests.exceptions.* *)
| QueueEmpty.                         (* queue.Empty *)

Definition is_TimeoutExpired (e : exn) : bool :=
  match e with TimeoutExpired => true | _ => false end.

Definition is_RequestException (e : exn) : bool :=
  match e with RequestException _ => true | _ => false end.

Definition is_Empty (e : exn) : bool :=
  match e with QueueEmpty => true | _ => false end.

Definition nl : string := String (ascii_of_nat 10) EmptyString.

(** A Python [str] is kept as its UTF-8 encoding, one [ascii] per byte.

    [str.isspace] holds of U+0009..U+000D, U+001C..U+0020, U+0085, U+00A0,
    U+1680, U+2000..U+200A, U+2028, U+2029, U+202F, U+205F and U+3000.
    [isspace] recognises those of one byte, [isspace2] those of two
    (C2 85, C2 A0) and [isspace3] those of three (E1 9A 80, E2 80 80..8A,
    E2 80 A8, E2 80 A9, E2 80 AF, E2 81 9F, E3 80 80). *)
Definition isspace (c : ascii) : bool :=
  let n := nat_of_ascii c in
  ((9 <=? n)%nat && (n <=? 13)%nat) || ((28 <=? n)%nat && (n <=? 32)%nat).

Definition isspace2 (a b : ascii) : bool :=
  (nat_of_ascii a =? 194)%nat &&
  ((nat_of_ascii b =? 133)%nat || (nat_of_ascii b =? 160)%nat).

Definition isspace3 (a b c : ascii) : bool :=
  let x := nat_of_ascii a in
  let y := nat_of_ascii b in
  let z := nat_of_ascii c in
  ((x =? 225)%nat && (y =? 154)%nat && (z =? 128)%nat)
  || ((x =? 226)%nat && (y =? 128)%nat &&
      (((128 <=? z)%nat && (z <=? 138)%nat)
       || (z =? 168)%nat || (z =? 169)%nat || (z =? 175)%nat))
  || ((x =? 226)%nat && (y =? 129)%nat && (z =? 159)%nat)
  || ((x =? 227)%nat && (y =? 128)%nat && (z =? 128)%nat).

(** [s.lstrip()] *)
Fixpoint lstrip (s : string) : string :=
  match s with
  | EmptyString => EmptyString
  | String a s1 =>
      if isspace a then lstrip s1
      else
        match s1 with
        | EmptyString => s
        | String b s2 =>
            if isspace2 a b then lstrip s2
            else
              match s2 with
              | EmptyString => s
              | String c s3 => if isspace3 a b c then lstrip s3 else s
              end
        end
  end.

Fixpoint rev_onto (s acc : string) : string :=
  match s with
  | EmptyString => acc
  | String c s' => rev_onto s' (String c acc)
  end.

Definition string_rev (s : string) : string := rev_onto s EmptyString.

(** [lstrip] on a string read backwards: the bytes of a character come
    last byte first. *)
Fixpoint lstrip_backwards (r : string) : string :=
  match r with
  | EmptyString => EmptyString
  | String c r1 =>
      if isspace c then lstrip_backwards r1
      else
        match r1 with
        | EmptyString => r
        | String b r2 =>
            if isspace2 b c then lstrip_backwards r2
            else
              match r2 with
              | EmptyString => r
              | String a r3 => if isspace3 a b c then lstrip_backwards r3 else r
              end
        end
  end.

(** [s.rstrip()] *)
Definition rstrip (s : string) : string :=
  string_rev (lstrip_backwards (string_rev s)).

(** [s.strip()] *)
Definition strip (s : string) : string := rstrip (lstrip s).

(** [needle in hay] *)
Fixpoint contains (needle hay : string) : bool :=
  String.prefix needle hay ||
  match hay with
  | EmptyString => false
  | String _ hay' => contains needle hay'
  end.

(** Truthiness of an optional string ([None] and [""] are falsy). *)
Definition truthy (o : option string) : bool :=
  match o with
  | None => false
  | Some s => negb (String.eqb s EmptyString)
  end.

(** [os.path.dirname] (posixpath). *)
Fixpoint drop_to_slash (s : string) : string :=
  match s with
  | EmptyString => EmptyString
  | String c s' => if Ascii.eqb c "/" then s else drop_to_slash s'
  end.

Fixpoint all_slashes (s : string) : bool :=
  match s with
  | EmptyString => true
  | String c s' => Ascii.eqb c "/" && all_slashes s'
  end.

Fixpoint lstrip_slashes (s : string) : string :=
  match s with
  | EmptyString => EmptyString
  | String c s' => if Ascii.eqb c "/" then lstrip_slashes s' else s
  end.

Definition dirname (p : string) : string :=
  (* head = p[:p.rfind('/') + 1] *)
  let head_rev := drop_to_slash (string_rev p) in
  if negb (String.eqb head_rev EmptyString) && negb (all_slashes head_rev)
  then string_rev (lstrip_slashes head_rev)
  else string_rev head_rev.

Definition endswith_slash (p : string) : bool :=
  match string_rev p with
  | String c _ => Ascii.eqb c "/"
  | EmptyString => false
  end.

Definition startswith_slash (p : string) : bool :=
  match p with
  | String c _ => Ascii.eqb c "/"
  | EmptyString => false
  end.

(** [os.path.join] (posixpath). *)
Definition join2 (path b : string) : string :=
  if startswith_slash b then b
  else if String.eqb path EmptyString || endswith_slash path then path +:+ b
  else path +:+ "/" +:+ b.

Definition path_join (a : string) (ps : list string) : string :=
  fold_left join2 ps a.

End Py.

Import Py.

(** ** Numbers

    Python [int] is [Z].  Python [float] is IEEE-754 binary64 and the
    samples delivered by the sound device are binary32 (sounddevice's
    default dtype, kept by [scipy.signal.resample] and by the product with
    the Python integer [32767]); both are [spec_float] values handled with
    the operations of [SpecFloat] at the matching precision. *)

Module Num.

(** Conversion of a float to an integer by truncation toward zero: Python's
    [int(x)] and the C cast behind [ndarray.astype].  Undefined on NaN and
    on the infinities. *)
Definition trunc (x : spec_float) : option Z :=
  match x with
  | S754_zero _ => Some 0
  | S754_finite s m e => Some (cond_Zopp s (Z.shiftl (Zpos m) e))
  | S754_infinity _ | S754_nan => None
  end.

(** An integer as the float with that exact value (mantissa not yet
    rounded). *)
Definition exact_of_int (a : Z) : spec_float :=
  match a with
  | Z0 => S754_zero false
  | Zpos p => S754_finite false p 0
  | Zneg p => S754_finite true p 0
  end.

(** [a / b] on Python integers: the correctly rounded binary64 quotient. *)
Definition truediv (a b : Z) : exn + spec_float :=
  if (b =? 0)%Z then inl ZeroDivisionError
  else match SFdiv 53 1024 (exact_of_int a) (exact_of_int b) with
       | S754_infinity _ => inl OverflowError
       | q => inr q
       end.

(** [int(x)] on a Python float. *)
Definition int_of_float (x : spec_float) : exn + Z :=
  match trunc x with
  | Some z => inr z
  | None =>
      match x with
      | S754_nan => inl (ValueError "cannot convert float NaN to integer")
      | _ => inl OverflowError
      end
  end.

(** A Python number: an [int] or a [float]. *)
Inductive number :=
| Int (z : Z)
| Float (x : spec_float).

Coercion Int : Z >-> number.

(** [float(a)] as Python converts an [int] operand: the nearest binary64
    value, [OverflowError] when there is none. *)
Definition float_of_int (a : Z) : exn + spec_float :=
  match binary_normalize 53 1024 a 0 false with
  | S754_infinity _ => inl OverflowError
  | x => inr x
  end.

(** [a * b] for an [int] [a]: an [int] product when [b] is an [int], the
    binary64 product of [float(a)] and [b] when [b] is a [float]. *)
Definition int_mul (a : Z) (b : number) : exn + number :=
  match b with
  | Int z => inr (Int (a * z))
  | Float y =>
      match float_of_int a with
      | inl e => inl e
      | inr x => inr (Float (SFmul 53 1024 x y))
      end
  end.

(** [int(x)] *)
Definition int_of (x : number) : exn + Z :=
  match x with
  | Int z => inr z
  | Float f => int_of_float f
  end.

(** binary32 *)
Definition f32_mul : spec_float -> spec_float -> spec_float := SFmul 24 128.
Definition f32_of_int (z : Z) : spec_float := binary_normalize 24 128 z 0 false.
Definition f32_valid : spec_float -> bool := valid_binary 24 128.

Definition in_int16 (z : Z) : bool := ((-32768 <=? z) && (z <=? 32767))%Z.

End Num.

Import Num.

(** ** Effects

    A computation reads and updates the file system, performs I/O (kept
    as a list, oldest first) and ends with a value, with a Python exception,
    or with [sys.exit]. *)

Inductive file :=
| Blank                              (* created, nothing written yet *)
| Wav (rate : Z) (data : list Z)     (* written by scipy.io.wavfile.write *)
| Opaque.                            (* anything else *)

Inductive io_event :=
| Print (text : string)              (* print(...) *)
| WavWrite (filename : string) (rate : Z) (data : list Z)
                                     (* scipy.io.wavfile.write(filename, rate, data) *)
| Run (cmd : list string)            (* subprocess.run(cmd, ...) *)
| Post (url model prompt : string).  (* requests.post(url, json=...) *)

Inductive res (A : Type) :=
| Ok (a : A)
| Raise (e : exn)
| Exit (code : Z).
Arguments Ok {A} a.
Arguments Raise {A} e.
Arguments Exit {A} code.

Record outcome (A : Type) := Outcome {
  result : res A;
  final_fs : gmap string file;
  effects : list io_event
}.
Arguments Outcome {A} _ _ _.
Arguments result {A} _.
Arguments final_fs {A} _.
Arguments effects {A} _.

Definition M (A : Type) : Type := gmap string file -> outcome A.

Definition ret {A} (a : A) : M A := fun fs => Outcome (Ok a) fs [].
Definition raise {A} (e : exn) : M A := fun fs => Outcome (Raise e) fs [].
Definition sys_exit {A} (code : Z) : M A := fun fs => Outcome (Exit code) fs [].

Definition bind {A B} (m : M A) (k : A -> M B) : M B := fun fs =>
  let o := m fs in
  match result o with
  | Ok a =>
      let o' := k a (final_fs o) in
      Outcome (result o') (final_fs o') (effects o ++ effects o')
  | Raise e => Outcome (Raise e) (final_fs o) (effects o)
  | Exit c => Outcome (Exit c) (final_fs o) (effects o)
  end.

Notation "x <- m ;; k" := (bind m (fun x => k))
  (at level 100, m at next level, right associativity).
Notation "m ;; k" := (bind m (fun _ => k))
  (at level 100, right associativity).

(** [try: body  except Exception as e: handler(e)].  Every [exn] is an
    [Exception]; [sys.exit] passes through. *)
Definition try_except {A} (body : M A) (handler : exn -> M A) : M A := fun fs =>
  let o := body fs in
  match result o with
  | Raise e =>
      let o' := handler e (final_fs o) in
      Outcome (result o') (final_fs o') (effects o ++ effects o')
  | _ => o
  end.

(** A [try] block whose first statement assigns a local that the handlers
    read: when that statement raises, the handlers run with the local
    unbound. *)
Definition try_assigning {L A} (first : M L) (rest : L -> M A)
    (handler : option L -> exn -> M A) : M A := fun fs =>
  let o := first fs in
  match result o with
  | Ok l =>
      let o' := try_except (rest l) (handler (Some l)) (final_fs o) in
      Outcome (result o') (final_fs o') (effects o ++ effects o')
  | Raise e =>
      let o' := handler None e (final_fs o) in
      Outcome (result o') (final_fs o') (effects o ++ effects o')
  | Exit c => Outcome (Exit c) (final_fs o) (effects o)
  end.

(** Reading a local variable that may not have been assigned. *)
Definition read_local {L} (var : string) (v : option L) : M L :=
  match v with
  | Some l => ret l
  | None => raise (UnboundLocalError var)
  end.

Definition lift {A} (r : exn + A) : M A :=
  match r with
  | inl e => raise e
  | inr a => ret a
  end.

Definition print (text : string) : M unit := fun fs => Outcome (Ok tt) fs [Print text].

Definition os_path_exists (path : string) : M bool := fun fs =>
  Outcome (Ok (bool_decide (is_Some (fs !! path)))) fs [].

(** [os.remove(path)]: removes an existing file, raises on a missing one. *)
Definition os_remove (path : string) : M unit := fun fs =>
  match fs !! path with
  | Some _ => Outcome (Ok tt) (delete path fs) []
  | None => Outcome (Raise (OSError ("No such file or directory: " +:+ path))) fs []
  end.

(** ** The program *)

Definition LANGUAGE : string := "Spanish".
Definition MODEL_PATH : string := "".
Definition LLM_MODEL : string := "gemma3:4b".

(** A block delivered by the sound device: frames of one sample per
    channel (a two-dimensional array). *)
Definition chunk : Type := list (list spec_float).

(** Where each worker thread stands. *)
Inductive recorder_pc :=
| RecStarting                        (* about to open sd.InputStream *)
| RecStreaming                       (* inside the with block *)
| RecExited.

Inductive processor_pc :=
| ProcLoop                           (* at the while test *)
| ProcWaiting                        (* inside audio_queue.get(timeout=0.5) *)
| ProcBusy (n : nat) (c : chunk)     (* handling the n-th dequeued chunk *)
| ProcExited.

(** The object's attributes.  The two thread attributes exist only once
    [start] has run; each carries the state of the thread it refers to. *)
Record RealtimeTranslator := {
  is_running : bool;
  sample_rate : Z;
  target_sample_rate : Z;
  chunk_duration : number;           (* seconds: 2 in __init__, an int or a float *)
  audio_queue : list chunk;
  model_path : string;
  binary_path : string;
  recording_thread : option recorder_pc;
  processing_thread : option processor_pc
}.

(** What the world answers to the external calls made for one chunk. *)
Record response := { status_code : Z; json_response : exn + string }.

Record Env := {
  env_tmpfile : exn + string;        (* NamedTemporaryFile: error, or the new file's name *)
  env_wav_write : option exn;        (* wav.write: error, if any *)
  env_run : exn + (Z * string);      (* subprocess.run: error, or (returncode, stdout) *)
  env_post : exn + response          (* requests.post: error, or the response *)
}.

(** [tempfile.NamedTemporaryFile(suffix='.wav', delete=False)], closed at
    once: an empty file is created under a name not yet in use and stays
    on disk. *)
Definition NamedTemporaryFile (env : Env) : M string := fun fs =>
  match env_tmpfile env with
  | inl e => Outcome (Raise e) fs []
  | inr name =>
      match fs !! name with
      | Some _ => Outcome (Raise (OSError "No usable temporary file name found")) fs []
      | None => Outcome (Ok name) (<[name := Blank]> fs) []
      end
  end.

(** [scipy.io.wavfile.write(filename, rate, data)] *)
Definition wav_write (env : Env) (filename : string) (rate : Z) (data : list Z) : M unit :=
  fun fs =>
  match env_wav_write env with
  | Some e => Outcome (Raise e) fs []
  | None => Outcome (Ok tt) (<[filename := Wav rate data]> fs) [WavWrite filename rate data]
  end.

(** [subprocess.run(cmd, check=True, capture_output=True, text=True, timeout=10)],
    returning [result.stdout]. *)
Definition subprocess_run (env : Env) (cmd : list string) : M string := fun fs =>
  match env_run env with
  | inl e => Outcome (Raise e) fs [Run cmd]
  | inr (returncode, stdout) =>
      if (returncode =? 0)%Z then Outcome (Ok stdout) fs [Run cmd]
      else Outcome (Raise (CalledProcessError returncode)) fs [Run cmd]
  end.

(** [requests.post(url, json={'model': .., 'prompt': .., 'stream': False}, timeout=10)] *)
Definition requests_post (env : Env) (url model prompt : string) : M response := fun fs =>
  match env_post env with
  | inl e => Outcome (Raise e) fs [Post url model prompt]
  | inr r => Outcome (Ok r) fs [Post url model prompt]
  end.

Definition raise_for_status (r : response) : M unit :=
  if ((400 <=? status_code r) && (status_code r <? 600))%Z
  then raise (RequestException "HTTPError")
  else ret tt.

Definition prompt_for (text : string) : string :=
  nl +:+ "You are a professional translator. Your task is to translate English text into natural, fluent "
     +:+ LANGUAGE +:+ "." +:+ nl
  +:+ nl
  +:+ "Rules:" +:+ nl
  +:+ "- Output ONLY the " +:+ LANGUAGE +:+ " translation." +:+ nl
  +:+ "- Do not include explanations, notes, or any additional text." +:+ nl
  +:+ "- Preserve the original meaning, tone, and style." +:+ nl
  +:+ nl
  +:+ "English: " +:+ text +:+ nl
  +:+ nl
  +:+ "Spanish:" +:+ nl.

(** ** The shared state of the three threads *)

Inductive control_pc :=
| Ready                              (* not inside stop() *)
| JoiningRecording                   (* blocked in self.recording_thread.join() *)
| JoiningProcessing.                 (* blocked in self.processing_thread.join() *)

Inductive event :=
| Captured (c : chunk)               (* the callback queued a block *)
| Began (n : nat) (c : chunk)        (* the worker took chunk number n off the queue *)
| Did (n : nat) (e : io_event)       (* I/O of the worker while handling chunk n *)
| Said (e : io_event)                (* I/O of the control thread *)
| StopReturned.                      (* a call of stop() returned *)

Record Sys := {
  obj : RealtimeTranslator;
  disk : gmap string file;
  main : control_pc;
  device_available : bool;           (* whether sd.InputStream can open the device *)
  dequeued : nat;                    (* chunks taken off the queue so far *)
  history : list event               (* oldest first *)
}.

Inductive action :=
| CallStart | CallStop | JoinRecording | JoinProcessing
| OpenStream | Sleep | CloseStream | Callback (indata : chunk)
| TestRunning | GetChunk | GetTimeout | Finish (env : Env).

(** ** The quantizer in the specification's words

    Following the spec's words: the sample is quantized as
    [round(sample * 32767)], out-of-range values are clamped to the signed
    16-bit range, and NaN and the infinities go to zero.  The product is
    taken exactly and rounded to the nearest integer, ties to even as
    Python's [round] does. *)




(** ** Sample data

    Small inputs on which the model is run: stand-ins for the library
    functions, an object with short chunks, and answers of the outside
    world. *)

(** Picks [n] samples of [x] at evenly spaced positions. *)
Definition resample_hold (x : list spec_float) (n : Z) : exn + list spec_float :=
  inr (map (fun i => nth (i * length x / Z.to_nat n)%nat x (S754_zero false))
           (seq 0 (Z.to_nat n))).

Definition fill_short (text : string) : string := text.

(** For [str(e)]: the text the exception carries, or the name of its class. *)
Definition text_of (e : exn) : string :=
  match e with
  | TimeoutExpired => "TimeoutExpired"
  | CalledProcessError _ => "CalledProcessError"
  | OSError m => m
  | UnboundLocalError v => "UnboundLocalError: " +:+ v
  | ZeroDivisionError => "division by zero"
  | OverflowError => "OverflowError"
  | ValueError m => m
  | KeyError k => k
  | RequestException m => m
  | QueueEmpty => ""
  end.

Definition cast_zero (x : spec_float) : Z := 0.

(** 0.25 as a binary32 value *)
Definition quarter : spec_float := S754_finite false 8388608 (-25).

Definition four_frames : chunk := [[quarter]; [quarter]; [quarter]; [quarter]].


(** One second at 4 Hz, resampled to 2 Hz. *)
Definition slow_self : RealtimeTranslator :=
  {| is_running := false;
     sample_rate := 4;
     target_sample_rate := 2;
     chunk_duration := 1;
     audio_queue := [];
     model_path := "/opt/whisper.cpp/models/ggml-base.en.bin";
     binary_path := "/opt/whisper.cpp/build/bin/whisper-cli";
     recording_thread := None;
     processing_thread := None |}.


(** The worker is handling chunk 0 and another chunk waits. *)
Definition busy_sys : Sys :=
  {| obj := {| is_running := true;
               sample_rate := 4;
               target_sample_rate := 2;
               chunk_duration := 1;
               audio_queue := [four_frames];
               model_path := "/opt/whisper.cpp/models/ggml-base.en.bin";
               binary_path := "/opt/whisper.cpp/build/bin/whisper-cli";
               recording_thread := Some RecStreaming;
               processing_thread := Some (ProcBusy 0 four_frames) |};
     disk := ∅;
     main := Ready;
     device_available := true;
     dequeued := 1;
     history := [Captured four_frames; Began 0 four_frames; Captured four_frames] |}.

Definition answers (stdout : exn + (Z * string)) (post : exn + response) : Env :=
  {| env_tmpfile := inr "/tmp/tmpk3v9.wav";
     env_wav_write := None;
     env_run := stdout;
     env_post := post |}.

Definition hola : exn + response :=
  inr {| status_code := 200; json_response := inr "hola" |}.

Definition env_hello : Env := answers (inr (0, " hello" +:+ nl)) hola.
Definition env_blank : Env := answers (inr (0, " [BLANK_AUDIO]" +:+ nl)) hola.
Definition env_bad_exit : Env := answers (inr (1, "")) hola.
Definition env_timeout : Env := answers (inl TimeoutExpired) hola.
Definition env_http_500 : Env :=
  answers (inr (0, " hello" +:+ nl))
    (inr {| status_code := 500; json_response := inl (ValueError "no body") |}).

(** No temporary file can be created. *)
Definition env_disk_full : Env :=
  {| env_tmpfile := inl (OSError "No space left on device");
     env_wav_write := None;
     env_run := inr (0, " hello" +:+ nl);
     env_post := hola |}.

(** U+3000 (ideographic space) and U+00A0 (no-break space), in UTF-8. *)
Definition ideographic_space : string :=
  String (ascii_of_nat 227) (String (ascii_of_nat 128) (String (ascii_of_nat 128) "")).

Definition nbsp : string := String (ascii_of_nat 194) (String (ascii_of_nat 160) "").

(** The engine hears nothing and prints white space only. *)
Definition env_silence : Env := answers (inr (0, " " +:+ ideographic_space +:+ nl)) hola.

(** The engine reports a pause in the middle of the text. *)
Definition env_pause : Env := answers (inr (0, " so [BLANK_AUDIO] then" +:+ nl)) hola.






(** A disk holding the engine binary but not the model. *)
Definition binary_only : gmap string file :=
  {[ "/opt/whisper.cpp/build/bin/whisper-cli" := Opaque ]}.

Section Program.

(** Library functions the program calls and whose code is not part of it.
    [fft_resample] is what [scipy.signal.resample] computes from at least
    one data point; it may raise. *)
Variable fft_resample : list spec_float -> Z -> exn + list spec_float.
Variable textwrap_fill : string -> string.  (* textwrap.fill(_, width=80, subsequent_indent="   ") *)

(** The value [ndarray.astype(np.int16)] leaves for a sample that is NaN,
    infinite or beyond the 16-bit range: the C conversion is undefined
    there and the outcome differs between platforms. *)
Variable cast_unspecified : spec_float -> Z.

(** [str(e)], as the f-strings of the program interpolate an exception:
    the text is composed by the interpreter or by the library that raised
    it. *)
Variable str : exn -> string.

(** [scipy.signal.resample(x, num)] returns [num] samples, for data of at
    least one sample and a positive [num]. *)
Hypothesis resample_length :
  forall x n, x <> [] -> 0 < n ->
    exists y, fft_resample x n = inr y /\ length y = Z.to_nat n.

(** [resample(x, num)] of [scipy.signal]: the Fourier transform of no data
    points is rejected with a [ValueError]. *)
Definition resample (x : list spec_float) (num : Z) : exn + list spec_float :=
  match x with
  | [] => inl (ValueError "invalid number of data points (0) specified")
  | _ :: _ => fft_resample x num
  end.

(** [x.astype(np.int16)] on one sample: the value cut toward zero when
    that fits in 16 bits. *)
Definition astype_int16 (x : spec_float) : Z :=
  match trunc x with
  | Some z => if in_int16 z then z else cast_unspecified x
  | None => cast_unspecified x
  end.

(** [int(self.sample_rate * self.chunk_duration)] *)
Definition chunk_samples (self : RealtimeTranslator) : exn + Z :=
  match int_mul (sample_rate self) (chunk_duration self) with
  | inl e => inl e
  | inr product => int_of product
  end.

(** [audio_chunk.flatten()] *)
Definition flatten (audio_chunk : chunk) : list spec_float := concat audio_chunk.

(** [int(len(audio_array) * self.target_sample_rate / self.sample_rate)] *)
Definition num_samples (self : RealtimeTranslator) (audio_array : list spec_float) : exn + Z :=
  match truediv (Z.of_nat (length audio_array) * target_sample_rate self) (sample_rate self) with
  | inl e => inl e
  | inr q => int_of_float q
  end.

(** [(audio_resampled * 32767).astype(np.int16)] *)
Definition to_int16 (audio_resampled : list spec_float) : list Z :=
  map (fun x => astype_int16 (f32_mul x (f32_of_int 32767))) audio_resampled.

(** Lines 110-113: the samples written to the WAV file. *)
Definition resample_and_quantize (self : RealtimeTranslator) (audio_chunk : chunk)
  : exn + list Z :=
  let audio_array := flatten audio_chunk in
  match num_samples self audio_array with
  | inl e => inl e
  | inr n =>
      match resample audio_array n with
      | inl e => inl e
      | inr audio_resampled => inr (to_int16 audio_resampled)
      end
  end.

Definition transcribe_handler (tmp_filename : option string) (e : exn) : M (option string) :=
  if is_TimeoutExpired e then
    print (nl +:+ "Transcription timeout") ;;
    name <- read_local "tmp_filename" tmp_filename ;;
    there <- os_path_exists name ;;
    (if there : bool then os_remove name else ret tt) ;;
    ret None
  else
    name <- read_local "tmp_filename" tmp_filename ;;
    there <- os_path_exists name ;;
    (if there : bool then os_remove name else ret tt) ;;
    ret None.

Definition _transcribe_chunk (self : RealtimeTranslator) (env : Env) (audio_chunk : chunk)
  : M (option string) :=
  try_assigning
    (NamedTemporaryFile env)
    (fun tmp_filename =>
       audio_int16 <- lift (resample_and_quantize self audio_chunk) ;;
       wav_write env tmp_filename (target_sample_rate self) audio_int16 ;;
       let cmd := [binary_path self; "-f"; tmp_filename; "-m"; model_path self;
                   "-l"; "en"; "-t"; "4"; "-nt"] in
       stdout <- subprocess_run env cmd ;;
       os_remove tmp_filename ;;
       let transcription := strip stdout in
       ret (if truthy (Some transcription) then Some transcription else None))
    transcribe_handler.

Definition _translate_text (env : Env) (text : string) : M (option string) :=
  try_except
    (response <- requests_post env "http://localhost:11434/api/generate"
                   LLM_MODEL (prompt_for text) ;;
     raise_for_status response ;;
     translation <- lift (json_response response) ;;
     ret (Some (strip translation)))
    (fun e =>
       if is_RequestException e then
         print (nl +:+ "Translation error: " +:+ str e) ;;
         ret None
       else ret None).

Definition _print_translation (original translation : string) : M unit :=
  let wrapped_translation := textwrap_fill (" " +:+ translation) in
  print wrapped_translation.

(** One pass through the body of the [while] loop of [_process_chunks];
    [got] is what [self.audio_queue.get(timeout=0.5)] produced. *)
Definition loop_body (self : RealtimeTranslator) (env : Env) (got : exn + chunk) : M unit :=
  try_except
    (audio_chunk <- lift got ;;
     transcription <- _transcribe_chunk self env audio_chunk ;;
     match transcription with
     | Some text =>
         if truthy transcription && negb (contains "[BLANK_AUDIO]" text) then
           translation <- _translate_text env text ;;
           match translation with
           | Some t => if truthy translation then _print_translation text t else ret tt
           | None => ret tt
           end
         else ret tt
     | None => ret tt
     end)
    (fun e =>
       if is_Empty e then ret tt
       else print (nl +:+ "Error processing chunk: " +:+ str e)).

(** [RealtimeTranslator(model_path)] *)
Definition __init__ (model_path : string) : M RealtimeTranslator :=
  let whisper_cpp_dir := dirname (dirname model_path) in
  let binary_path := path_join whisper_cpp_dir ["build"; "bin"; "whisper-cli"] in
  binary_there <- os_path_exists binary_path ;;
  if negb binary_there then
    print ("Binary not found: " +:+ binary_path) ;; sys_exit 1
  else
    model_there <- os_path_exists model_path ;;
    if negb model_there then
      print ("Model not found: " +:+ model_path) ;; sys_exit 1
    else
      ret {| is_running := false;
             sample_rate := 44100;
             target_sample_rate := 16000;
             chunk_duration := 2;
             audio_queue := [];
             model_path := model_path;
             binary_path := binary_path;
             recording_thread := None;
             processing_thread := None |}.

(** Attribute assignments. *)
Definition set_is_running (b : bool) (self : RealtimeTranslator) : RealtimeTranslator :=
  {| is_running := b;
     sample_rate := sample_rate self;
     target_sample_rate := target_sample_rate self;
     chunk_duration := chunk_duration self;
     audio_queue := audio_queue self;
     model_path := model_path self;
     binary_path := binary_path self;
     recording_thread := recording_thread self;
     processing_thread := processing_thread self |}.

Definition set_audio_queue (q : list chunk) (self : RealtimeTranslator) : RealtimeTranslator :=
  {| is_running := is_running self;
     sample_rate := sample_rate self;
     target_sample_rate := target_sample_rate self;
     chunk_duration := chunk_duration self;
     audio_queue := q;
     model_path := model_path self;
     binary_path := binary_path self;
     recording_thread := recording_thread self;
     processing_thread := processing_thread self |}.

Definition set_recording_thread (t : option recorder_pc) (self : RealtimeTranslator)
  : RealtimeTranslator :=
  {| is_running := is_running self;
     sample_rate := sample_rate self;
     target_sample_rate := target_sample_rate self;
     chunk_duration := chunk_duration self;
     audio_queue := audio_queue self;
     model_path := model_path self;
     binary_path := binary_path self;
     recording_thread := t;
     processing_thread := processing_thread self |}.

Definition set_processing_thread (t : option processor_pc) (self : RealtimeTranslator)
  : RealtimeTranslator :=
  {| is_running := is_running self;
     sample_rate := sample_rate self;
     target_sample_rate := target_sample_rate self;
     chunk_duration := chunk_duration self;
     audio_queue := audio_queue self;
     model_path := model_path self;
     binary_path := binary_path self;
     recording_thread := recording_thread self;
     processing_thread := t |}.

Definition rule80 : string := String.concat "" (repeat "=" 80).

(** [start]: both threads are created and started before it returns. *)
Definition start (self : RealtimeTranslator) : M RealtimeTranslator :=
  if is_running self then ret self
  else
    let self := set_is_running true self in
    print (nl +:+ "Real-time translation started (English → Spanish)") ;;
    print ("Start speaking... Press 'q' to quit" +:+ nl) ;;
    print rule80 ;;
    let self := set_recording_thread (Some RecStarting) self in
    let self := set_processing_thread (Some ProcLoop) self in
    ret self.

(** [stop] up to its first [join]: [None] when the guard returns at once,
    otherwise the object with the flag cleared. *)
Definition stop_enter (self : RealtimeTranslator) : M (option RealtimeTranslator) :=
  if negb (is_running self) then ret None
  else
    print (nl +:+ " Stopping translation...") ;;
    ret (Some (set_is_running false self)).

(** The callback given to [sd.InputStream] (its report of [status] goes to
    stderr, which is not modelled). *)
Definition callback (self : RealtimeTranslator) (indata : chunk) : RealtimeTranslator :=
  if is_running self then set_audio_queue (audio_queue self ++ [indata]) self
  else self.

(** ** The three threads together *)

(** What [sd.InputStream(..., channels=1, blocksize=chunk_samples)] hands
    the callback: frames of one channel, [blocksize] of them; with a
    [blocksize] of 0 the device chooses the number of frames, block by
    block. *)
Definition block_of (self : RealtimeTranslator) (indata : chunk) : bool :=
  match chunk_samples self with
  | inr blocksize =>
      ((blocksize =? 0)%Z || (Z.of_nat (length indata) =? blocksize)%Z)
      && forallb (fun frame => (length frame =? 1)%nat) indata
  | inl _ => false
  end.

Definition joinable_rec (t : option recorder_pc) : bool :=
  match t with
  | None | Some RecExited => true      (* no attribute, or thread finished *)
  | _ => false
  end.

Definition joinable_proc (t : option processor_pc) : bool :=
  match t with
  | None | Some ProcExited => true
  | _ => false
  end.

Definition with_obj (o : RealtimeTranslator) (s : Sys) : Sys :=
  {| obj := o; disk := disk s; main := main s;
     device_available := device_available s;
     dequeued := dequeued s; history := history s |}.

Definition with_main (m : control_pc) (s : Sys) : Sys :=
  {| obj := obj s; disk := disk s; main := m;
     device_available := device_available s;
     dequeued := dequeued s; history := history s |}.

Definition record (evs : list event) (s : Sys) : Sys :=
  {| obj := obj s; disk := disk s; main := main s;
     device_available := device_available s;
     dequeued := dequeued s; history := history s ++ evs |}.

Definition with_disk (d : gmap string file) (s : Sys) : Sys :=
  {| obj := obj s; disk := d; main := main s;
     device_available := device_available s;
     dequeued := dequeued s; history := history s |}.

Definition with_dequeued (n : nat) (s : Sys) : Sys :=
  {| obj := obj s; disk := disk s; main := main s;
     device_available := device_available s;
     dequeued := n; history := history s |}.

(** Whether [_record_chunks] gets into its [with] block: the block size
    is computed first, then the stream is opened; an exception at either
    point ends the thread. *)
Definition stream_opens (s : Sys) : bool :=
  match chunk_samples (obj s) with
  | inr _ => device_available s
  | inl _ => false
  end.

(** [fire a s]: the state after thread action [a], when [a] can happen
    in [s]. *)
Definition fire (a : action) (s : Sys) : option Sys :=
  let self := obj s in
  match a, main s with
  | CallStart, Ready =>
      let o := start self (disk s) in
      match result o with
      | Ok self' => Some (record (map Said (effects o)) (with_obj self' s))
      | _ => None
      end
  | CallStop, Ready =>
      let o := stop_enter self (disk s) in
      match result o with
      | Ok None => Some (record [StopReturned] s)
      | Ok (Some self') =>
          Some (record (map Said (effects o)) (with_main JoiningRecording (with_obj self' s)))
      | _ => None
      end
  | JoinRecording, JoiningRecording =>
      if joinable_rec (recording_thread self)
      then Some (with_main JoiningProcessing s) else None
  | JoinProcessing, JoiningProcessing =>
      if joinable_proc (processing_thread self)
      then Some (record [Said (Print "Translation stopped"); StopReturned] (with_main Ready s))
      else None
  | OpenStream, _ =>
      match recording_thread self with
      | Some RecStarting =>
          Some (with_obj (set_recording_thread
                            (Some (if stream_opens s then RecStreaming else RecExited))
                            self) s)
      | _ => None
      end
  | Sleep, _ =>
      match recording_thread self with
      | Some RecStreaming => if is_running self then Some s else None
      | _ => None
      end
  | CloseStream, _ =>
      match recording_thread self with
      | Some RecStreaming =>
          if is_running self then None
          else Some (with_obj (set_recording_thread (Some RecExited) self) s)
      | _ => None
      end
  | Callback indata, _ =>
      match recording_thread self with
      | Some RecStreaming =>
          if block_of self indata then
            Some (record (if is_running self then [Captured indata] else [])
                    (with_obj (callback self indata) s))
          else None
      | _ => None
      end
  | TestRunning, _ =>
      match processing_thread self with
      | Some ProcLoop =>
          Some (with_obj (set_processing_thread
                            (Some (if is_running self then ProcWaiting else ProcExited))
                            self) s)
      | _ => None
      end
  | GetChunk, _ =>
      match processing_thread self, audio_queue self with
      | Some ProcWaiting, c :: q =>
          let n := dequeued s in
          Some (record [Began n c]
                  (with_dequeued (S n)
                     (with_obj (set_processing_thread (Some (ProcBusy n c))
                                  (set_audio_queue q self)) s)))
      | _, _ => None
      end
  | GetTimeout, _ =>
      match processing_thread self, audio_queue self with
      | Some ProcWaiting, [] =>
          (* queue.Empty is raised and the handler continues *)
          Some (with_obj (set_processing_thread (Some ProcLoop) self) s)
      | _, _ => None
      end
  | Finish env, _ =>
      match processing_thread self with
      | Some (ProcBusy n c) =>
          let o := loop_body self env (inr c) (disk s) in
          let next := match result o with Ok _ => ProcLoop | _ => ProcExited end in
          Some (record (map (Did n) (effects o))
                  (with_disk (final_fs o)
                     (with_obj (set_processing_thread (Some next) self) s)))
      | _ => None
      end
  | _, _ => None
  end.

Definition step (s s' : Sys) : Prop := exists a, fire a s = Some s'.

Inductive reachable (s0 : Sys) : Sys -> Prop :=
| reach_refl : reachable s0 s0
| reach_step s s' : reachable s0 s -> step s s' -> reachable s0 s'.

(** Running a schedule of actions. *)
Fixpoint run (acts : list action) (s : Sys) : option Sys :=
  match acts with
  | [] => Some s
  | a :: acts' =>
      match fire a s with
      | Some s' => run acts' s'
      | None => None
      end
  end.

(** An object as [__init__] leaves it (not running, empty queue, no thread
    attribute), with the rates, duration and paths of [self]. *)
Definition idle (self : RealtimeTranslator) : RealtimeTranslator :=
  {| is_running := false;
     sample_rate := sample_rate self;
     target_sample_rate := target_sample_rate self;
     chunk_duration := chunk_duration self;
     audio_queue := [];
     model_path := model_path self;
     binary_path := binary_path self;
     recording_thread := None;
     processing_thread := None |}.

(** The system around a freshly built object. *)
Definition boot (self : RealtimeTranslator) (d : gmap string file) (dev : bool) : Sys :=
  {| obj := idle self; disk := d; main := Ready; device_available := dev;
     dequeued := 0; history := [] |}.

(** ** The command loop

    [main] prints a banner, builds the translator with the default model
    path and then reads keys: [q] (either case) stops a started translator
    and leaves; the first space starts it; every other key is ignored. *)

(** [key.lower()] on ASCII letters. *)
Definition lower_char (c : ascii) : ascii :=
  let n := nat_of_ascii c in
  if (65 <=? n)%nat && (n <=? 90)%nat then ascii_of_nat (n + 32) else c.

Fixpoint lower (s : string) : string :=
  match s with
  | EmptyString => EmptyString
  | String c s' => String (lower_char c) (lower s')
  end.

(** What [main] does, in order. *)
Inductive main_step :=
| Tells (e : io_event)               (* a print, of main or of the constructor *)
| Starts                             (* translator.start() *)
| Stops                              (* translator.stop(), once it has returned *)
| Leaves (code : Z).                 (* the process ends with this status *)

(** The [while True] loop; [keys] are the successive results of
    [readchar.readkey()].  When they run out the loop is waiting for a
    key. *)
Fixpoint key_loop (started : bool) (keys : list string) : list main_step :=
  match keys with
  | [] => []
  | key :: keys' =>
      if String.eqb (lower key) "q" then
        (if started then [Stops] else []) ++
        [Tells (Print (nl +:+ "Exiting program...")); Leaves 0]
      else if String.eqb key " " && negb started then
        Starts :: key_loop true keys'
      else key_loop started keys'
  end.

Definition main_banner : list main_step :=
  [Tells (Print "REAL TIME ENGLISH TRANSLATOR");
   Tells (Print rule80);
   Tells (Print ("Model: " +:+ LLM_MODEL));
   Tells (Print (nl +:+ "Make sure Ollama is running: ollama serve"));
   Tells (Print ("Make sure " +:+ LLM_MODEL +:+ " is installed: ollama pull " +:+ LLM_MODEL))].

(** [main()]; an exception escaping the constructor would end the process
    with status 1. *)
Definition main_function (fs : gmap string file) (keys : list string) : list main_step :=
  let o := __init__ MODEL_PATH fs in
  (main_banner ++ map Tells (effects o) ++
   match result o with
   | Ok translator =>
       Tells (Print (nl +:+ "Press SPACE to start, 'q' to quit...")) :: key_loop false keys
   | Raise e => [Leaves 1]
   | Exit code => [Leaves code]
   end)%list.

(** ** Vocabulary for stating the facts *)

(** No [/] in the string. *)
Fixpoint slash_free (s : string) : bool :=
  match s with
  | EmptyString => true
  | String c s' => negb (Ascii.eqb c "/") && slash_free s'
  end.

(** Only white-space characters in the string. *)
Fixpoint all_space (s : string) : bool :=
  match s with
  | EmptyString => true
  | String a s1 =>
      if isspace a then all_space s1
      else
        match s1 with
        | EmptyString => false
        | String b s2 =>
            if isspace2 a b then all_space s2
            else
              match s2 with
              | EmptyString => false
              | String c s3 => isspace3 a b c && all_space s3
              end
        end
  end.

(** The calls [main] makes on the translator. *)
Definition calls (steps : list main_step) : list main_step :=
  List.filter (fun st => match st with Starts | Stops => true | _ => false end) steps.

(** The I/O the processing worker has done. *)
Definition worker_io (h : list event) : list io_event :=
  flat_map (fun e => match e with Did _ io => [io] | _ => [] end) h.

Definition is_busy (t : option processor_pc) : bool :=
  match t with
  | Some (ProcBusy _ _) => true
  | _ => false
  end.

(** Thread actions after which both workers have ended, from the state
    the threads are in once the flag is clear; [env] answers the call that
    is in flight, if any. *)
Definition recorder_winds_down (s : Sys) : list action :=
  match recording_thread (obj s) with
  | Some RecStarting => if stream_opens s then [OpenStream; CloseStream] else [OpenStream]
  | Some RecStreaming => [CloseStream]
  | _ => []
  end.

Definition processor_winds_down (s : Sys) (env : Env) : list action :=
  match processing_thread (obj s) with
  | Some ProcLoop => [TestRunning]
  | Some ProcWaiting =>
      match audio_queue (obj s) with
      | [] => [GetTimeout; TestRunning]
      | _ :: _ => [GetChunk; Finish env; TestRunning]
      end
  | Some (ProcBusy _ _) => [Finish env; TestRunning]
  | _ => []
  end.

Definition stop_schedule (s : Sys) (env : Env) : list action :=
  (CallStop :: recorder_winds_down s ++ processor_winds_down s env ++
   [JoinRecording; JoinProcessing])%list.

(** The lines and effects the two stages report, by name. *)
Definition timeout_line : string := nl +:+ "Transcription timeout".

Definition whisper_cmd (self : RealtimeTranslator) (tmp_filename : string) : list string :=
  [binary_path self; "-f"; tmp_filename; "-m"; model_path self;
   "-l"; "en"; "-t"; "4"; "-nt"].

Definition timeout_report (e : exn) : list io_event :=
  if is_TimeoutExpired e then [Print timeout_line] else [].

Definition generate_url : string := "http://localhost:11434/api/generate".

Definition translation_report (e : exn) : list io_event :=
  if is_RequestException e
  then [Print (nl +:+ "Translation error: " +:+ str e)] else [].

Definition chunk_error_line (e : exn) : string :=
  nl +:+ "Error processing chunk: " +:+ str e.

Definition is_run (e : io_event) : bool :=
  match e with Run _ => true | _ => false end.

Definition is_post (e : io_event) : bool :=
  match e with Post _ _ _ => true | _ => false end.

Definition is_print (e : io_event) : bool :=
  match e with Print _ => true | _ => false end.

(** The three diagnostic lines of the program. *)
Definition diagnostic (text : string) : Prop :=
  text = timeout_line \/
  (exists e, text = chunk_error_line e) \/
  (exists e, text = nl +:+ "Translation error: " +:+ str e).

(** The recognition stage fails: an exception in one of its calls, or a
    bad exit status of the engine. *)
Definition recognition_fails (env : Env) : bool :=
  match env_tmpfile env, env_wav_write env, env_run env with
  | inr _, None, inr (returncode, _) => negb (returncode =? 0)%Z
  | _, _, _ => true
  end.

(** The translation stage fails: an exception in the request, an error
    status, or a body that cannot be read. *)
Definition translation_fails (env : Env) : bool :=
  match env_post env with
  | inl _ => true
  | inr r =>
      ((400 <=? status_code r) && (status_code r <? 600))%Z ||
      match json_response r with inl _ => true | inr _ => false end
  end.

Definition captured (h : list event) : list chunk :=
  flat_map (fun e => match e with Captured c => [c] | _ => [] end) h.

Definition begun (h : list event) : list (nat * chunk) :=
  flat_map (fun e => match e with Began n c => [(n, c)] | _ => [] end) h.

(** Chunk numbers in a history starting when [k] chunks have begun: every
    [Began] carries the next number, every [Did] the number of the chunk
    begun last. *)
Fixpoint in_order (k : nat) (h : list event) : Prop :=
  match h with
  | [] => True
  | Began n _ :: h' => n = k /\ in_order (S k) h'
  | Did n _ :: h' => S n = k /\ in_order k h'
  | _ :: h' => in_order k h'
  end.

Definition start_banner : list io_event :=
  [Print (nl +:+ "Real-time translation started (English → Spanish)");
   Print ("Start speaking... Press 'q' to quit" +:+ nl);
   Print rule80].

Definition stop_banner : list io_event :=
  [Print (nl +:+ " Stopping translation...")].

(** What each action does, when it can happen. *)
Inductive fired (s : Sys) : action -> Sys -> Prop :=
| fired_start_noop :
    main s = Ready -> is_running (obj s) = true ->
    fired s CallStart (record [] s)
| fired_start :
    main s = Ready -> is_running (obj s) = false ->
    fired s CallStart
      (record (map Said start_banner)
         (with_obj (set_processing_thread (Some ProcLoop)
                      (set_recording_thread (Some RecStarting)
                         (set_is_running true (obj s)))) s))
| fired_stop_noop :
    main s = Ready -> is_running (obj s) = false ->
    fired s CallStop (record [StopReturned] s)
| fired_stop :
    main s = Ready -> is_running (obj s) = true ->
    fired s CallStop
      (record (map Said stop_banner)
         (with_main JoiningRecording (with_obj (set_is_running false (obj s)) s)))
| fired_join_recording :
    main s = JoiningRecording -> joinable_rec (recording_thread (obj s)) = true ->
    fired s JoinRecording (with_main JoiningProcessing s)
| fired_join_processing :
    main s = JoiningProcessing -> joinable_proc (processing_thread (obj s)) = true ->
    fired s JoinProcessing
      (record [Said (Print "Translation stopped"); StopReturned] (with_main Ready s))
| fired_open :
    recording_thread (obj s) = Some RecStarting ->
    fired s OpenStream
      (with_obj (set_recording_thread
                   (Some (if stream_opens s then RecStreaming else RecExited))
                   (obj s)) s)
| fired_sleep :
    recording_thread (obj s) = Some RecStreaming -> is_running (obj s) = true ->
    fired s Sleep s
| fired_close :
    recording_thread (obj s) = Some RecStreaming -> is_running (obj s) = false ->
    fired s CloseStream (with_obj (set_recording_thread (Some RecExited) (obj s)) s)
| fired_callback indata :
    recording_thread (obj s) = Some RecStreaming -> block_of (obj s) indata = true ->
    fired s (Callback indata)
      (record (if is_running (obj s) then [Captured indata] else [])
         (with_obj (callback (obj s) indata) s))
| fired_test :
    processing_thread (obj s) = Some ProcLoop ->
    fired s TestRunning
      (with_obj (set_processing_thread
                   (Some (if is_running (obj s) then ProcWaiting else ProcExited))
                   (obj s)) s)
| fired_get c q :
    processing_thread (obj s) = Some ProcWaiting -> audio_queue (obj s) = c :: q ->
    fired s GetChunk
      (record [Began (dequeued s) c]
         (with_dequeued (S (dequeued s))
            (with_obj (set_processing_thread (Some (ProcBusy (dequeued s) c))
                         (set_audio_queue q (obj s))) s)))
| fired_timeout :
    processing_thread (obj s) = Some ProcWaiting -> audio_queue (obj s) = [] ->
    fired s GetTimeout (with_obj (set_processing_thread (Some ProcLoop) (obj s)) s)
| fired_finish env n c :
    processing_thread (obj s) = Some (ProcBusy n c) ->
    fired s (Finish env)
      (record (map (Did n) (effects (loop_body (obj s) env (inr c) (disk s))))
         (with_disk (disk s)
            (with_obj (set_processing_thread (Some ProcLoop) (obj s)) s))).

(** What holds in every state reached from [boot self _ _]. *)
Record invariant (self : RealtimeTranslator) (s : Sys) : Prop := {
  inv_rates :
    sample_rate (obj s) = sample_rate self /\
    chunk_duration (obj s) = chunk_duration self /\
    target_sample_rate (obj s) = target_sample_rate self;
  inv_fifo :
    (map snd (begun (history s)) ++ audio_queue (obj s))%list = captured (history s);
  inv_count : length (begun (history s)) = dequeued s;
  inv_order : in_order 0 (history s);
  inv_busy : forall n c,
    processing_thread (obj s) = Some (ProcBusy n c) -> S n = dequeued s;
  inv_blocks : Forall (fun c => block_of self c = true) (captured (history s));
  inv_ready :
    main s = Ready -> is_running (obj s) = false ->
    joinable_rec (recording_thread (obj s)) = true /\
    joinable_proc (processing_thread (obj s)) = true;
  inv_joining : main s <> Ready -> is_running (obj s) = false;
  inv_joined :
    main s = JoiningProcessing -> joinable_rec (recording_thread (obj s)) = true;
  inv_returned :
    last (history s) = Some StopReturned ->
    main s = Ready /\ is_running (obj s) = false
}.

Ltac project :=
  cbn [obj disk main device_available dequeued history record with_obj
       with_main with_disk with_dequeued set_is_running set_audio_queue
       set_recording_thread set_processing_thread is_running sample_rate
       target_sample_rate chunk_duration audio_queue recording_thread
       processing_thread callback] in *.

(** The sample lies in [-1, 1]. *)
Definition in_unit_range (x : spec_float) : bool :=
  SFleb (f32_of_int (-1)) x && SFleb x (f32_of_int 1).

(** ** Facts about the per-chunk code *)

Lemma handler_unbound e fs :
  transcribe_handler None e fs =
  Outcome (Raise (UnboundLocalError "tmp_filename")) fs
    (if is_TimeoutExpired e then [Print timeout_line] else []).
Proof. unfold transcribe_handler. destruct (is_TimeoutExpired e); reflexivity. Qed.

Lemma handler_bound name e fs f :
  fs !! name = Some f ->
  transcribe_handler (Some name) e fs =
  Outcome (Ok None) (delete name fs)
    (if is_TimeoutExpired e then [Print timeout_line] else []).
Proof.
  intros Hf. unfold transcribe_handler.
  destruct (is_TimeoutExpired e); unfold bind, print, read_local, ret, os_path_exists, os_remove;
    simpl; rewrite Hf; simpl; rewrite Hf; reflexivity.
Qed.

(** [_transcribe_chunk] path by path. *)
Lemma transcribe_paths self env audio_chunk fs :
  _transcribe_chunk self env audio_chunk fs =
  match env_tmpfile env with
  | inl e => Outcome (Raise (UnboundLocalError "tmp_filename")) fs (timeout_report e)
  | inr name =>
      match fs !! name with
      | Some _ => Outcome (Raise (UnboundLocalError "tmp_filename")) fs []
      | None =>
          match resample_and_quantize self audio_chunk with
          | inl e => Outcome (Ok None) fs (timeout_report e)
          | inr pcm =>
              match env_wav_write env with
              | Some e => Outcome (Ok None) fs (timeout_report e)
              | None =>
                  let written := WavWrite name (target_sample_rate self) pcm in
                  let ran := Run (whisper_cmd self name) in
                  match env_run env with
                  | inl e => Outcome (Ok None) fs ([written; ran] ++ timeout_report e)
                  | inr (returncode, stdout) =>
                      if (returncode =? 0)%Z then
                        Outcome (Ok (if truthy (Some (strip stdout))
                                     then Some (strip stdout) else None))
                          fs [written; ran]
                      else Outcome (Ok None) fs [written; ran]
                  end
              end
          end
      end
  end.
Proof.
  unfold _transcribe_chunk, try_assigning, NamedTemporaryFile, timeout_report.
  destruct (env_tmpfile env) as [e|name].
  { cbn [result final_fs effects]. rewrite handler_unbound. reflexivity. }
  destruct (fs !! name) eqn:Hfs.
  { cbn [result final_fs effects]. rewrite handler_unbound. reflexivity. }
  cbn [result final_fs effects].
  assert (Hdel1 : delete name (<[name:=Blank]> fs) = fs)
    by (apply delete_insert_id, Hfs).
  assert (Hdel2 : forall f, delete name (<[name:=f]> (<[name:=Blank]> fs)) = fs)
    by (intros f; rewrite delete_insert_eq; exact Hdel1).
  unfold try_except, bind, lift.
  destruct (resample_and_quantize self audio_chunk) as [e|pcm].
  { cbn [result final_fs effects raise].
    erewrite handler_bound by apply lookup_insert_eq.
    cbn [result final_fs effects app]. rewrite Hdel1. reflexivity. }
  cbn [result final_fs effects ret]. unfold wav_write.
  destruct (env_wav_write env) as [e|].
  { cbn [result final_fs effects app].
    erewrite handler_bound by apply lookup_insert_eq.
    cbn [result final_fs effects app]. rewrite Hdel1. reflexivity. }
  cbn [result final_fs effects app]. unfold subprocess_run.
  destruct (env_run env) as [e|[rc out]].
  { cbn [result final_fs effects app].
    erewrite handler_bound by apply lookup_insert_eq.
    cbn [result final_fs effects app]. rewrite Hdel2. reflexivity. }
  destruct (rc =? 0)%Z.
  - cbn [result final_fs effects app]. unfold os_remove.
    rewrite lookup_insert_eq. cbn [result final_fs effects app].
    rewrite Hdel2. reflexivity.
  - cbn [result final_fs effects app].
    erewrite handler_bound by apply lookup_insert_eq.
    cbn [result final_fs effects app is_TimeoutExpired]. rewrite Hdel2. reflexivity.
Qed.

(** [_translate_text] path by path. *)
Lemma translate_paths env text fs :
  _translate_text env text fs =
  let posted := Post generate_url LLM_MODEL (prompt_for text) in
  match env_post env with
  | inl e => Outcome (Ok None) fs ([posted] ++ translation_report e)
  | inr r =>
      if ((400 <=? status_code r) && (status_code r <? 600))%Z then
        Outcome (Ok None) fs
          ([posted] ++ translation_report (RequestException "HTTPError"))
      else
        match json_response r with
        | inl e => Outcome (Ok None) fs ([posted] ++ translation_report e)
        | inr t => Outcome (Ok (Some (strip t))) fs [posted]
        end
  end.
Proof.
  unfold _translate_text, try_except, bind, requests_post, translation_report.
  fold generate_url.
  destruct (env_post env) as [e|r]; cbn [result final_fs effects].
  - destruct (is_RequestException e); reflexivity.
  - unfold raise_for_status.
    destruct ((400 <=? status_code r) && (status_code r <? 600))%Z.
    + reflexivity.
    + cbn [result final_fs effects ret app]. unfold lift.
      destruct (json_response r) as [e|t]; cbn [result final_fs effects raise ret app].
      * destruct (is_RequestException e); reflexivity.
      * reflexivity.
Qed.

(** The loop body in terms of the two stages. *)
Lemma loop_body_paths self env c fs :
  loop_body self env (inr c) fs =
  let o1 := _transcribe_chunk self env c fs in
  match result o1 with
  | Ok None => Outcome (Ok tt) (final_fs o1) (effects o1)
  | Ok (Some text) =>
      if truthy (Some text) && negb (contains "[BLANK_AUDIO]" text) then
        let o2 := _translate_text env text (final_fs o1) in
        match result o2 with
        | Ok (Some t) =>
            if truthy (Some t) then
              Outcome (Ok tt) (final_fs o2)
                (effects o1 ++ effects o2 ++ [Print (textwrap_fill (" " +:+ t))])
            else Outcome (Ok tt) (final_fs o2) (effects o1 ++ effects o2)
        | Ok None => Outcome (Ok tt) (final_fs o2) (effects o1 ++ effects o2)
        | Raise e =>
            Outcome (Ok tt) (final_fs o2)
              ((effects o1 ++ effects o2) ++
               (if is_Empty e then [] else [Print (chunk_error_line e)]))
        | Exit code => Outcome (Exit code) (final_fs o2) (effects o1 ++ effects o2)
        end
      else Outcome (Ok tt) (final_fs o1) (effects o1)
  | Raise e =>
      Outcome (Ok tt) (final_fs o1)
        (effects o1 ++ (if is_Empty e then [] else [Print (chunk_error_line e)]))
  | Exit code => Outcome (Exit code) (final_fs o1) (effects o1)
  end.
Proof.
  unfold loop_body, try_except, bind, lift, chunk_error_line.
  cbn [result final_fs effects ret app].
  destruct (_transcribe_chunk self env c fs) as [[[text|]|e|code] fs1 ev1];
    cbn [result final_fs effects ret app].
  - destruct (truthy (Some text) && negb (contains "[BLANK_AUDIO]" text)).
    + destruct (_translate_text env text fs1) as [[[t|]|e|code] fs2 ev2];
        cbn [result final_fs effects ret app].
      * destruct (truthy (Some t)); unfold _print_translation, print, ret;
          cbn [result final_fs effects ret app]; rewrite ?app_nil_r; reflexivity.
      * unfold ret. cbn [result final_fs effects ret app]. rewrite ?app_nil_r. reflexivity.
      * destruct (is_Empty e); unfold ret, print; cbn [result final_fs effects app];
          reflexivity.
      * reflexivity.
    + unfold ret. cbn [result final_fs effects app]. rewrite ?app_nil_r. reflexivity.
  - unfold ret. cbn [result final_fs effects app]. rewrite ?app_nil_r. reflexivity.
  - destruct (is_Empty e); unfold ret, print; cbn [result final_fs effects app];
      reflexivity.
  - reflexivity.
Qed.

Lemma loop_body_empty self env fs :
  loop_body self env (inl QueueEmpty) fs = Outcome (Ok tt) fs [].
Proof. reflexivity. Qed.

Lemma transcribe_effects self env c fs :
  let o := _transcribe_chunk self env c fs in
  (length (List.filter is_run (effects o)) <= 1)%nat /\
  List.filter is_post (effects o) = [] /\
  (forall text, In (Print text) (effects o) -> text = timeout_line) /\
  (forall text, result o = Ok (Some text) ->
     recognition_fails env = false /\ List.filter is_print (effects o) = []) /\
  (forall code, result o <> Exit code).
Proof.
  cbv zeta. rewrite transcribe_paths. unfold recognition_fails, timeout_report.
  destruct (env_tmpfile env) as [e|name].
  { destruct (is_TimeoutExpired e); cbn -[timeout_line]; repeat split; try lia; try congruence;
      intros; intuition (try congruence). }
  destruct (fs !! name).
  { cbn -[timeout_line]; repeat split; try lia; try congruence; intros; intuition (try congruence). }
  destruct (resample_and_quantize self c) as [e|pcm].
  { destruct (is_TimeoutExpired e); cbn -[timeout_line]; repeat split; try lia; try congruence;
      intros; intuition (try congruence). }
  destruct (env_wav_write env) as [e|].
  { destruct (is_TimeoutExpired e); cbn -[timeout_line]; repeat split; try lia; try congruence;
      intros; intuition (try congruence). }
  destruct (env_run env) as [e|[rc out]].
  { destruct (is_TimeoutExpired e); cbn -[timeout_line]; repeat split; try lia; try congruence;
      intros; intuition (try congruence). }
  destruct (rc =? 0)%Z; cbn -[timeout_line]; repeat split; try lia; try congruence;
    intros; intuition (try congruence).
Qed.

Lemma translate_effects env text fs :
  let o := _translate_text env text fs in
  final_fs o = fs /\
  (length (List.filter is_post (effects o)) <= 1)%nat /\
  List.filter is_run (effects o) = [] /\
  (forall line, In (Print line) (effects o) -> diagnostic line) /\
  (forall t, result o = Ok (Some t) ->
     translation_fails env = false /\ List.filter is_print (effects o) = []) /\
  (forall e, result o <> Raise e) /\
  (forall code, result o <> Exit code).
Proof.
  cbv zeta. rewrite translate_paths. unfold translation_fails, translation_report.
  assert (Hd : forall e line,
             In (Print line) [Print (nl +:+ "Translation error: " +:+ str e)] ->
             diagnostic line).
  { intros e line [H|[]]. injection H as <-. right. right. exists e. reflexivity. }
  assert (Hp : forall u m p line, In (Print line) [Post u m p] -> diagnostic line).
  { intros u m p line [H|[]]. discriminate. }
  assert (Hpd : forall u m p e line,
             In (Print line) [Post u m p; Print (nl +:+ "Translation error: " +:+ str e)] ->
             diagnostic line).
  { intros u m p e line [H|H]; [discriminate | eauto]. }
  destruct (env_post env) as [e|r].
  { destruct (is_RequestException e); cbn -[append nl In];
      repeat split; try lia; try congruence; eauto. }
  destruct ((400 <=? status_code r) && (status_code r <? 600))%Z.
  { cbn -[append nl In]; repeat split; try lia; try congruence; eauto. }
  destruct (json_response r) as [e|t].
  { destruct (is_RequestException e); cbn -[append nl In];
      repeat split; try lia; try congruence; eauto. }
  cbn -[append nl In]; repeat split; try lia; try congruence; eauto.
Qed.

Lemma transcribe_restores_fs self env audio_chunk fs :
  final_fs (_transcribe_chunk self env audio_chunk fs) = fs.
Proof.
  rewrite transcribe_paths.
  destruct (env_tmpfile env) as [e|name]; [reflexivity|].
  destruct (fs !! name); [reflexivity|].
  destruct (resample_and_quantize self audio_chunk); [reflexivity|].
  destruct (env_wav_write env); [reflexivity|].
  destruct (env_run env) as [e|[rc out]]; [reflexivity|].
  destruct (rc =? 0)%Z; reflexivity.
Qed.

(** C10: when [_transcribe_chunk] creates its temporary file [name], the
    call returns normally and [name] is gone from the file system when it
    does, whatever the outcomes of writing the WAV data and of running the
    engine (success, timeout, any other error); the file system is then
    exactly what it was before the call. *)
Theorem temp_file_removed_on_every_path self env audio_chunk fs name :
  env_tmpfile env = inr name ->
  fs !! name = None ->
  let o := _transcribe_chunk self env audio_chunk fs in
  (exists r, result o = Ok r) /\ final_fs o !! name = None /\ final_fs o = fs.
Proof.
  intros Htmp Hfresh o.
  assert (Hfs : final_fs o = fs) by apply transcribe_restores_fs.
  split; [|split; [rewrite Hfs; exact Hfresh | exact Hfs]].
  subst o. rewrite transcribe_paths, Htmp, Hfresh.
  destruct (resample_and_quantize self audio_chunk); [eauto|].
  destruct (env_wav_write env); [eauto|].
  destruct (env_run env) as [e|[rc out]]; [eauto|].
  destruct (rc =? 0)%Z; eauto.
Qed.

Lemma blank_marker_drops self env c fs text :
  result (_transcribe_chunk self env c fs) = Ok (Some text) ->
  contains "[BLANK_AUDIO]" text = true ->
  let o := loop_body self env (inr c) fs in
  result o = Ok tt /\
  List.filter is_post (effects o) = [] /\
  List.filter is_print (effects o) = [].
Proof.
  intros Hres Hblank o. subst o. rewrite loop_body_paths. cbv zeta.
  destruct (transcribe_effects self env c fs) as (_ & Hpost & _ & Hok & _).
  cbv zeta in Hpost, Hok. destruct (Hok _ Hres) as [_ Hprint].
  rewrite Hres, Hblank, andb_false_r. cbn [result effects]. auto.
Qed.

Lemma filter_nil_not_In {A} (p : A -> bool) (l : list A) (x : A) :
  List.filter p l = [] -> p x = true -> ~ In x l.
Proof.
  intros Hnil Hp Hin.
  assert (H : In x (List.filter p l)) by (apply filter_In; auto).
  rewrite Hnil in H. exact H.
Qed.

(** C2: when the recognition result is the blank-audio marker
    ["[BLANK_AUDIO]"], handling the chunk makes no translation request and
    prints nothing. *)
Theorem blank_audio_short_circuits self env c fs :
  result (_transcribe_chunk self env c fs) = Ok (Some "[BLANK_AUDIO]") ->
  let o := loop_body self env (inr c) fs in
  result o = Ok tt /\
  (forall url model prompt, ~ In (Post url model prompt) (effects o)) /\
  (forall text, ~ In (Print text) (effects o)).
Proof.
  intros Hres o.
  destruct (blank_marker_drops self env c fs _ Hres eq_refl) as (Hok & Hpost & Hprint).
  fold o in Hok, Hpost, Hprint.
  split; [exact Hok|]. split.
  - intros url model prompt. eapply filter_nil_not_In; [exact Hpost | reflexivity].
  - intros text. eapply filter_nil_not_In; [exact Hprint | reflexivity].
Qed.

Lemma filter_length_app {A} (p : A -> bool) (l1 l2 : list A) :
  length (List.filter p (l1 ++ l2)) =
  (length (List.filter p l1) + length (List.filter p l2))%nat.
Proof. rewrite List.filter_app, length_app. reflexivity. Qed.

Lemma loop_body_contained self env c fs :
  let o := loop_body self env (inr c) fs in
  result o = Ok tt /\
  final_fs o = fs /\
  (length (List.filter is_run (effects o)) <= 1)%nat /\
  (length (List.filter is_post (effects o)) <= 1)%nat /\
  (recognition_fails env = true ->
     List.filter is_post (effects o) = [] /\
     forall text, In (Print text) (effects o) -> diagnostic text) /\
  (translation_fails env = true ->
     forall text, In (Print text) (effects o) -> diagnostic text).
Proof.
  cbv zeta. rewrite loop_body_paths. cbv zeta.
  pose proof (transcribe_restores_fs self env c fs) as Hfs1.
  destruct (transcribe_effects self env c fs) as (Hrun1 & Hpost1 & Hprint1 & Hok1 & Hexit1).
  cbv zeta in Hrun1, Hpost1, Hprint1, Hok1, Hexit1.
  assert (Hdiag1 : forall text,
             In (Print text) (effects (_transcribe_chunk self env c fs)) -> diagnostic text).
  { intros text Hin. left. auto. }
  destruct (result (_transcribe_chunk self env c fs)) as [[text|]|e|code] eqn:Hres.
  - destruct (Hok1 _ eq_refl) as [Hnofail Hnoprint].
    destruct (truthy (Some text) && negb (contains "[BLANK_AUDIO]" text)).
    2:{ cbn [result final_fs effects]. rewrite Hpost1. repeat split; auto; cbn; lia. }
    rewrite Hfs1.
    destruct (translate_effects env text fs)
      as (Hfs2 & Hpost2 & Hrun2 & Hprint2 & Hok2 & Hraise2 & Hexit2).
    cbv zeta in Hfs2, Hpost2, Hrun2, Hprint2, Hok2, Hraise2, Hexit2.
    destruct (result (_translate_text env text fs)) as [[t|]|e|code] eqn:Hres2.
    + destruct (Hok2 _ eq_refl) as [Hnofail2 _].
      destruct (truthy (Some t)); cbn [result final_fs effects];
        rewrite ?filter_length_app, ?Hpost1, ?Hrun2; cbn [length List.filter is_run is_post];
        repeat split; auto; try lia; try congruence.
    + cbn [result final_fs effects].
      rewrite ?filter_length_app, ?Hpost1, ?Hrun2; cbn [length List.filter is_run is_post].
      repeat split; auto; try lia; try congruence.
      intros _ line Hin. apply in_app_or in Hin. destruct Hin; auto.
    + exfalso. eapply Hraise2. reflexivity.
    + exfalso. eapply Hexit2. reflexivity.
  - cbn [result final_fs effects]. rewrite Hpost1.
    repeat split; auto; cbn; lia.
  - assert (Hd : forall text,
               In (Print text)
                 (effects (_transcribe_chunk self env c fs) ++
                  (if is_Empty e then [] else [Print (chunk_error_line e)])) ->
               diagnostic text).
    { intros text Hin. apply in_app_or in Hin. destruct Hin as [Hin|Hin]; [auto|].
      destruct (is_Empty e); [contradiction|].
      destruct Hin as [Hin|[]]. injection Hin as <-. right. left. eauto. }
    cbn [result final_fs effects].
    rewrite !List.filter_app, !length_app, Hpost1.
    destruct (is_Empty e); cbn [length List.filter is_run is_post app];
      repeat split; auto; lia.
  - exfalso. eapply Hexit1. reflexivity.
Qed.

Lemma fire_Finish s env n c :
  processing_thread (obj s) = Some (ProcBusy n c) ->
  fire (Finish env) s =
  Some (record (map (Did n) (effects (loop_body (obj s) env (inr c) (disk s))))
          (with_disk (disk s)
             (with_obj (set_processing_thread (Some ProcLoop) (obj s)) s))).
Proof.
  intros Hpc. unfold fire. rewrite Hpc.
  destruct (loop_body_contained (obj s) env c (disk s)) as (Hres & Hfs & _).
  cbv zeta in Hres, Hfs. cbv zeta. rewrite Hres, Hfs.
  destruct (main s); reflexivity.
Qed.

(** C1 (as the code has it): while the worker handles chunk [c], whatever
    the recognition and translation calls answer, the loop body ends
    without an exception; the engine is run at most once and the
    translation requested at most once; the worker is back at the loop
    test with the queue untouched (the chunk is not put back), and when the
    flag is still set it takes the next queued chunk.  When recognition
    fails no translation is requested, and when either stage fails every
    line printed for the chunk is a diagnostic. *)
Theorem chunk_failure_is_contained s env n c :
  processing_thread (obj s) = Some (ProcBusy n c) ->
  let o := loop_body (obj s) env (inr c) (disk s) in
  result o = Ok tt /\
  (length (List.filter is_run (effects o)) <= 1)%nat /\
  (length (List.filter is_post (effects o)) <= 1)%nat /\
  (recognition_fails env = true ->
     List.filter is_post (effects o) = [] /\
     forall text, In (Print text) (effects o) -> diagnostic text) /\
  (translation_fails env = true ->
     forall text, In (Print text) (effects o) -> diagnostic text) /\
  (exists s', fire (Finish env) s = Some s' /\
     processing_thread (obj s') = Some ProcLoop /\
     audio_queue (obj s') = audio_queue (obj s) /\
     is_running (obj s') = is_running (obj s) /\
     history s' = (history s ++ map (Did n) (effects o))%list) /\
  (forall c' q, is_running (obj s) = true -> audio_queue (obj s) = c' :: q ->
     exists s'', run [Finish env; TestRunning; GetChunk] s = Some s'' /\
       processing_thread (obj s'') = Some (ProcBusy (dequeued s) c')).
Proof.
  intros Hpc o.
  destruct (loop_body_contained (obj s) env c (disk s))
    as (Hres & Hfs & Hrun & Hpost & Hrec & Htr).
  fold o in Hres, Hfs, Hrun, Hpost, Hrec, Htr.
  repeat (split; [assumption|]).
  pose proof (fire_Finish s env n c Hpc) as Hfire. fold o in Hfire.
  split.
  - eexists. split; [exact Hfire|]. cbn. auto.
  - intros c' q Hrunning Hq. cbn [run]. rewrite Hfire.
    unfold fire at 1. cbn. rewrite Hrunning.
    destruct (main s); cbn; rewrite Hq; cbn; eauto.
Qed.

(** ** Facts about the threads *)

Lemma start_paths self fs :
  start self fs =
  if is_running self then Outcome (Ok self) fs []
  else Outcome
         (Ok (set_processing_thread (Some ProcLoop)
                (set_recording_thread (Some RecStarting) (set_is_running true self))))
         fs start_banner.
Proof. unfold start. destruct (is_running self); reflexivity. Qed.

Lemma stop_enter_paths self fs :
  stop_enter self fs =
  if is_running self
  then Outcome (Ok (Some (set_is_running false self))) fs stop_banner
  else Outcome (Ok None) fs [].
Proof. unfold stop_enter. destruct (is_running self); reflexivity. Qed.

Lemma record_nil s : record [] s = s.
Proof. destruct s. unfold record. cbn. rewrite app_nil_r. reflexivity. Qed.

Lemma fire_fired a s s' : fire a s = Some s' -> fired s a s'.
Proof.
  intros H. destruct a.
  - unfold fire in H. rewrite start_paths in H.
    destruct (main s) eqn:Hm; try discriminate.
    destruct (is_running (obj s)) eqn:Hr; cbn in H; injection H as <-.
    + replace (with_obj (obj s) s) with s by (destruct s; reflexivity).
      apply fired_start_noop; assumption.
    + apply fired_start; assumption.
  - unfold fire in H. rewrite stop_enter_paths in H.
    destruct (main s) eqn:Hm; try discriminate.
    destruct (is_running (obj s)) eqn:Hr; cbn in H; injection H as <-.
    + apply fired_stop; assumption.
    + apply fired_stop_noop; assumption.
  - unfold fire in H. destruct (main s) eqn:Hm; try discriminate.
    destruct (joinable_rec _) eqn:Hj; try discriminate. injection H as <-.
    constructor; assumption.
  - unfold fire in H. destruct (main s) eqn:Hm; try discriminate.
    destruct (joinable_proc _) eqn:Hj; try discriminate. injection H as <-.
    constructor; assumption.
  - unfold fire in H.
    destruct (recording_thread (obj s)) as [[]|] eqn:Ht;
      destruct (main s); try discriminate; injection H as <-; constructor; assumption.
  - unfold fire in H.
    destruct (recording_thread (obj s)) as [[]|] eqn:Ht;
      destruct (is_running (obj s)) eqn:Hr;
      destruct (main s); try discriminate; injection H as <-; constructor; assumption.
  - unfold fire in H.
    destruct (recording_thread (obj s)) as [[]|] eqn:Ht;
      destruct (is_running (obj s)) eqn:Hr;
      destruct (main s); try discriminate; injection H as <-; constructor; assumption.
  - unfold fire in H.
    destruct (recording_thread (obj s)) as [[]|] eqn:Ht;
      destruct (block_of (obj s) indata) eqn:Hb;
      destruct (main s); try discriminate; injection H as <-; constructor; assumption.
  - unfold fire in H.
    destruct (processing_thread (obj s)) as [[]|] eqn:Ht;
      destruct (main s); try discriminate; injection H as <-; constructor; assumption.
  - unfold fire in H.
    destruct (processing_thread (obj s)) as [[]|] eqn:Ht;
      destruct (audio_queue (obj s)) eqn:Hq;
      destruct (main s); try discriminate; injection H as <-; constructor; assumption.
  - unfold fire in H.
    destruct (processing_thread (obj s)) as [[]|] eqn:Ht;
      destruct (audio_queue (obj s)) eqn:Hq;
      destruct (main s); try discriminate; injection H as <-; constructor; assumption.
  - destruct (processing_thread (obj s)) as [[]|] eqn:Ht;
      try (unfold fire in H; rewrite Ht in H; destruct (main s); discriminate).
    rewrite (fire_Finish s env n c Ht) in H. injection H as <-.
    constructor; assumption.
Qed.

Lemma captured_app h1 h2 : captured (h1 ++ h2) = (captured h1 ++ captured h2)%list.
Proof. apply flat_map_app. Qed.

Lemma begun_app h1 h2 : begun (h1 ++ h2) = (begun h1 ++ begun h2)%list.
Proof. apply flat_map_app. Qed.

Lemma captured_Said evs : captured (map Said evs) = [].
Proof. induction evs; [reflexivity | exact IHevs]. Qed.

Lemma begun_Said evs : begun (map Said evs) = [].
Proof. induction evs; [reflexivity | exact IHevs]. Qed.

Lemma captured_Did n evs : captured (map (Did n) evs) = [].
Proof. induction evs; [reflexivity | exact IHevs]. Qed.

Lemma begun_Did n evs : begun (map (Did n) evs) = [].
Proof. induction evs; [reflexivity | exact IHevs]. Qed.

Lemma in_order_app k h1 h2 :
  in_order k (h1 ++ h2) <-> in_order k h1 /\ in_order (k + length (begun h1)) h2.
Proof.
  revert k. induction h1 as [|e h1 IH]; intros k.
  - cbn. rewrite Nat.add_0_r. tauto.
  - destruct e; cbn [app in_order begun flat_map length]; rewrite ?IH;
      cbn [app length]; rewrite ?Nat.add_succ_r; cbn [Nat.add]; tauto.
Qed.

Lemma in_order_Said k evs : in_order k (map Said evs).
Proof. induction evs; [exact I | exact IHevs]. Qed.

Lemma in_order_Did n evs : in_order (S n) (map (Did n) evs).
Proof. induction evs; cbn; auto. Qed.

(** In an ordered history the chunks begun are numbered from [k] on. *)
Lemma in_order_begun k h :
  in_order k h -> map fst (begun h) = seq k (length (begun h)).
Proof.
  revert k. induction h as [|e h IH]; intros k Hord; [reflexivity|].
  destruct e; cbn in Hord |- *; auto.
  - destruct Hord as [-> Hord]. f_equal. auto.
  - destruct Hord as [_ Hord]. auto.
Qed.

Lemma block_of_rates self o c :
  sample_rate o = sample_rate self -> chunk_duration o = chunk_duration self ->
  block_of o c = block_of self c.
Proof. intros H1 H2. unfold block_of, chunk_samples. rewrite H1, H2. reflexivity. Qed.

Lemma invariant_boot self d dev : invariant self (boot self d dev).
Proof.
  constructor; cbn; auto; try discriminate; try tauto.
Qed.

Lemma last_Did n evs : last (map (Did n) evs) <> Some StopReturned.
Proof.
  intros H. apply last_Some in H as [l' H].
  assert (Hin : In StopReturned (map (Did n) evs))
    by (rewrite H; apply in_or_app; right; left; reflexivity).
  apply in_map_iff in Hin as (x & Hx & _). discriminate.
Qed.

Ltac unfold_history :=
  rewrite ?app_nil_r, ?captured_app, ?begun_app, ?captured_Said, ?begun_Said,
    ?captured_Did, ?begun_Did, ?app_nil_r.

Lemma invariant_fired self s a s' :
  invariant self s -> fired s a s' -> invariant self s'.
Proof.
  intros Hinv Hf.
  destruct Hf as [Hm Hr|Hm Hr|Hm Hr|Hm Hr|Hm Hj|Hm Hj|Ht|Ht Hr|Ht Hr|indata Ht Hb
                 |Ht|c q Ht Hq|Ht Hq|env n c Ht].
  1: { rewrite record_nil. exact Hinv. }
  7: { exact Hinv. }
  all: destruct Hinv as [Hrates Hfifo Hcount Hord Hbusy Hblocks Hready Hjoining Hjoined Hret].
  - (* start *)
    constructor; project; unfold_history; auto; try discriminate; try congruence.
    + apply in_order_app; split; [assumption | apply in_order_Said].
    + rewrite last_app. cbn. discriminate.
  - (* stop, flag clear *)
    constructor; project; unfold_history; auto; try discriminate; try congruence.
    + apply in_order_app; split; [assumption | exact I].
  - (* stop, flag set *)
    constructor; project; unfold_history; auto; try discriminate; try congruence.
    + apply in_order_app; split; [assumption | apply in_order_Said].
    + rewrite last_app. cbn. discriminate.
  - (* join recording *)
    constructor; project; unfold_history; auto; try discriminate; try congruence.
    + intros _. apply Hjoining. congruence.
    + intros Hl. destruct (Hret Hl). congruence.
  - (* join processing *)
    assert (Hflag : is_running (obj s) = false) by (apply Hjoining; congruence).
    constructor; project; unfold_history; auto; try discriminate; try congruence.
    + apply in_order_app; split; [assumption | exact I].
  - (* open stream *)
    constructor; project; unfold_history; auto; try discriminate; try congruence.
    + intros Hm Hr. destruct (Hready Hm Hr) as [Hj _]. rewrite Ht in Hj. discriminate.
    + intros Hm. specialize (Hjoined Hm). rewrite Ht in Hjoined. discriminate.
  - (* close stream *)
    constructor; project; unfold_history; auto; try discriminate; try congruence.
    + intros Hm _. destruct (Hready Hm Hr) as [Hj _]. rewrite Ht in Hj. discriminate.
  - (* callback *)
    unfold callback.
    destruct (is_running (obj s)) eqn:Hr.
    + constructor; project; unfold_history; auto; try discriminate; try congruence.
      * cbn [captured begun flat_map app]. rewrite <- Hfifo, app_assoc.
        reflexivity.
      * apply in_order_app; split; [assumption | exact I].
      * cbn [captured flat_map app]. apply Forall_app. split; [assumption|].
        constructor; [|constructor].
        destruct Hrates as (Hr1 & Hr2 & _).
        rewrite <- (block_of_rates self (obj s)); assumption.
      * intros Hm. specialize (Hjoining Hm). congruence.
      * rewrite last_app. cbn. discriminate.
    + constructor; project; unfold_history; auto; try discriminate; try congruence.
      intros Hl. destruct (Hret Hl). auto.
  - (* loop test *)
    constructor; project; unfold_history; auto; try discriminate; try congruence.
    + intros n c H. destruct (is_running (obj s)); discriminate.
    + intros Hm Hr. destruct (Hready Hm Hr) as [_ Hj]. rewrite Ht in Hj. discriminate.
  - (* get, chunk there *)
    constructor; project; unfold_history; auto; try discriminate; try congruence.
    + cbn [begun flat_map app]. rewrite map_app, <- Hfifo, Hq, <- app_assoc. reflexivity.
    + cbn [begun flat_map app]. rewrite length_app, Hcount. cbn. lia.
    + apply in_order_app; split; [assumption|]. rewrite Hcount. cbn. auto.
    + intros Hm Hr. destruct (Hready Hm Hr) as [_ Hj]. rewrite Ht in Hj. discriminate.
    + rewrite last_app. cbn. discriminate.
  - (* get, timeout *)
    constructor; project; unfold_history; auto; try discriminate; try congruence.
    + intros Hm Hr. destruct (Hready Hm Hr) as [_ Hj]. rewrite Ht in Hj. discriminate.
  - (* finish *)
    constructor; project; unfold_history; auto; try discriminate; try congruence.
    + apply in_order_app; split; [assumption|]. rewrite Hcount. cbn [Nat.add].
      rewrite <- (Hbusy n c Ht). apply in_order_Did.
    + intros Hm Hr. destruct (Hready Hm Hr) as [_ Hj]. rewrite Ht in Hj. discriminate.
    + rewrite last_app.
      destruct (last (map (Did n) (effects (loop_body (obj s) env (inr c) (disk s)))))
        as [e|] eqn:Hl.
      * intros He. exfalso. apply (last_Did n (effects (loop_body (obj s) env (inr c) (disk s)))).
        congruence.
      * intros He. destruct (Hret He) as [Hm Hr].
        destruct (Hready Hm Hr) as [_ Hj]. rewrite Ht in Hj. discriminate.
Qed.

Lemma invariant_reachable self d dev s :
  reachable (boot self d dev) s -> invariant self s.
Proof.
  induction 1 as [|s s' _ IH [a Ha]].
  - apply invariant_boot.
  - eapply invariant_fired; [exact IH | apply fire_fired, Ha].
Qed.

Lemma run_reachable acts s0 s :
  run acts s0 = Some s -> forall s00, reachable s00 s0 -> reachable s00 s.
Proof.
  revert s0. induction acts as [|a acts IH]; intros s0 Hrun s00 Hreach.
  - injection Hrun as <-. exact Hreach.
  - cbn in Hrun. destruct (fire a s0) as [s1|] eqn:Hfire; [|discriminate].
    apply (IH s1 Hrun). eapply reach_step; [exact Hreach | exists a; exact Hfire].
Qed.

Lemma run_app acts1 acts2 s :
  run (acts1 ++ acts2) s =
  match run acts1 s with
  | Some s1 => run acts2 s1
  | None => None
  end.
Proof.
  revert s. induction acts1 as [|a acts1 IH]; intros s; [reflexivity|].
  cbn [app run]. destruct (fire a s); [apply IH | reflexivity].
Qed.

Lemma fire_TestRunning s :
  processing_thread (obj s) = Some ProcLoop ->
  fire TestRunning s =
  Some (with_obj (set_processing_thread
                    (Some (if is_running (obj s) then ProcWaiting else ProcExited))
                    (obj s)) s).
Proof. intros Ht. unfold fire. rewrite Ht. destruct (main s); reflexivity. Qed.

Lemma fire_GetChunk s c q :
  processing_thread (obj s) = Some ProcWaiting ->
  audio_queue (obj s) = c :: q ->
  fire GetChunk s =
  Some (record [Began (dequeued s) c]
          (with_dequeued (S (dequeued s))
             (with_obj (set_processing_thread (Some (ProcBusy (dequeued s) c))
                          (set_audio_queue q (obj s))) s))).
Proof. intros Ht Hq. unfold fire. rewrite Ht, Hq. destruct (main s); reflexivity. Qed.

(** With the flag set, the worker takes the queued chunks one after the
    other, in queue order, whatever the outside world answers. *)
Lemma worker_drains_queue envs :
  forall s,
    processing_thread (obj s) = Some ProcLoop ->
    is_running (obj s) = true ->
    length envs = length (audio_queue (obj s)) ->
    exists s',
      run (flat_map (fun env => [TestRunning; GetChunk; Finish env]) envs) s = Some s' /\
      processing_thread (obj s') = Some ProcLoop /\
      audio_queue (obj s') = [] /\
      begun (history s') =
        (begun (history s) ++
         combine (seq (dequeued s) (length envs)) (audio_queue (obj s)))%list.
Proof.
  induction envs as [|env envs IH]; intros s Ht Hr Hlen.
  - destruct (audio_queue (obj s)) eqn:Hq; [|discriminate].
    exists s. cbn. rewrite app_nil_r. auto.
  - destruct (audio_queue (obj s)) as [|c q] eqn:Hq; [discriminate|].
    cbn [flat_map]. rewrite run_app. cbn [run].
    rewrite (fire_TestRunning s Ht), Hr.
    erewrite fire_GetChunk; [|reflexivity|cbn; exact Hq].
    erewrite fire_Finish; [|reflexivity].
    assert (Hlen' : length envs = length q) by (cbn in Hlen; lia).
    match goal with
    | |- context [run _ ?s3] =>
        destruct (IH s3 eq_refl Hr Hlen') as (s' & Hrun & Ht' & Hq' & Hb)
    end.
    exists s'. split; [exact Hrun|]. split; [exact Ht'|]. split; [exact Hq'|].
    rewrite Hb. project. rewrite !begun_app, begun_Did, app_nil_r.
    cbn [begun flat_map app length seq combine]. rewrite <- app_assoc. reflexivity.
Qed.

Lemma In_begun n c h : In (n, c) (begun h) <-> In (Began n c) h.
Proof.
  unfold begun. rewrite in_flat_map. split.
  - intros (e & Hin & He). destruct e; cbn in He; try contradiction.
    destruct He as [He|[]]. injection He as -> ->. exact Hin.
  - intros Hin. exists (Began n c). split; [exact Hin | left; reflexivity].
Qed.

(** C7: in every reachable state the chunks taken off the queue, followed
    by those still queued, are the chunks captured, in capture order; the
    chunks taken are numbered 0, 1, 2, ... in the order taken; and whatever
    the worker does for chunk [n] (running the engine, requesting and
    printing the translation) happens after chunk [n] was taken and before
    any later chunk is taken.  Moreover the worker does take them: from
    the loop test with the flag set, it handles all queued chunks one
    after the other in queue order, whatever the outside world answers. *)
Theorem fifo_processing self d dev s :
  reachable (boot self d dev) s ->
  (map snd (begun (history s)) ++ audio_queue (obj s))%list = captured (history s) /\
  map fst (begun (history s)) = seq 0 (dequeued s) /\
  (forall pre post n e,
     history s = (pre ++ Did n e :: post)%list ->
     (exists c, In (Began n c) pre) /\
     (forall m c, In (Began m c) pre -> (m <= n)%nat)) /\
  (forall envs,
     processing_thread (obj s) = Some ProcLoop ->
     is_running (obj s) = true ->
     length envs = length (audio_queue (obj s)) ->
     exists s',
       run (flat_map (fun env => [TestRunning; GetChunk; Finish env]) envs) s = Some s' /\
       processing_thread (obj s') = Some ProcLoop /\
       audio_queue (obj s') = [] /\
       begun (history s') =
         (begun (history s) ++
          combine (seq (dequeued s) (length envs)) (audio_queue (obj s)))%list).
Proof.
  intros Hreach. apply invariant_reachable in Hreach.
  destruct Hreach as [_ Hfifo Hcount Hord _ _ _ _ _ _].
  split; [exact Hfifo|]. split; [|split].
  - rewrite <- Hcount. apply in_order_begun, Hord.
  - intros pre post n e Hsplit. rewrite Hsplit in Hord.
    apply in_order_app in Hord as [Hpre Hrest].
    cbn in Hrest. destruct Hrest as [Hn _].
    pose proof (in_order_begun 0 pre Hpre) as Hnum. rewrite <- Hn in Hnum.
    split.
    + assert (Hin : In n (map fst (begun pre))).
      { rewrite Hnum. apply in_seq. lia. }
      apply in_map_iff in Hin as ([m c] & Hm & Hin). cbn in Hm. subst m.
      exists c. apply In_begun, Hin.
    + intros m c Hin. apply In_begun in Hin.
      assert (Hm : In m (map fst (begun pre))).
      { apply in_map_iff. exists (m, c). split; [reflexivity | exact Hin]. }
      rewrite Hnum in Hm. apply in_seq in Hm. lia.
  - intros envs. apply worker_drains_queue.
Qed.

(** C6: a call of [stop] made while the flag is clear (in particular
    before any [start]) returns at once and changes neither the object nor
    the file system nor prints anything; and in every reachable state whose
    latest event is the return of a [stop] call, the flag is clear and each
    worker thread either never existed or has exited, so the processing
    worker is not inside a recognition or translation call. *)
Theorem stop_joins_workers self d dev :
  (forall o fs, is_running o = false -> stop_enter o fs = Outcome (Ok None) fs []) /\
  (forall s, main s = Ready -> is_running (obj s) = false ->
     exists s', fire CallStop s = Some s' /\
       obj s' = obj s /\ disk s' = disk s /\ main s' = main s /\
       history s' = (history s ++ [StopReturned])%list) /\
  (forall s, reachable (boot self d dev) s ->
     last (history s) = Some StopReturned ->
     is_running (obj s) = false /\
     joinable_rec (recording_thread (obj s)) = true /\
     joinable_proc (processing_thread (obj s)) = true /\
     forall n c, processing_thread (obj s) <> Some (ProcBusy n c)).
Proof.
  split; [|split].
  - intros o fs Hr. rewrite stop_enter_paths, Hr. reflexivity.
  - intros s Hm Hr. unfold fire. rewrite stop_enter_paths, Hm, Hr.
    cbn [result]. eexists. split; [reflexivity|]. cbn. rewrite Hm. auto.
  - intros s Hreach Hlast. apply invariant_reachable in Hreach.
    destruct Hreach as [_ _ _ _ _ _ Hready _ _ Hret].
    destruct (Hret Hlast) as [Hm Hr]. destruct (Hready Hm Hr) as [Hj1 Hj2].
    repeat (split; [assumption|]).
    intros n c Ht. rewrite Ht in Hj2. discriminate.
Qed.

Lemma stream_opens_no_device s : device_available s = false -> stream_opens s = false.
Proof.
  intros Hdev. unfold stream_opens. rewrite Hdev.
  destruct (chunk_samples (obj s)); reflexivity.
Qed.

(** C8 (as the code has it): construction checks the two paths: when the
    engine binary is missing, or when it exists and the model file is
    missing, [__init__] prints which one and exits with status 1, so no
    object ever runs; when both exist it returns an object that is not
    running.  The sound device is not checked before running: [start]
    sets the flag whatever the device, and a device that cannot be opened
    only ends the recording thread, leaving the flag set. *)
Theorem startup_checks model_path fs :
  let bin := path_join (dirname (dirname model_path)) ["build"; "bin"; "whisper-cli"] in
  let o := __init__ model_path fs in
  (fs !! bin = None ->
     result o = Exit 1 /\ effects o = [Print ("Binary not found: " +:+ bin)]) /\
  (is_Some (fs !! bin) -> fs !! model_path = None ->
     result o = Exit 1 /\ effects o = [Print ("Model not found: " +:+ model_path)]) /\
  (is_Some (fs !! bin) -> is_Some (fs !! model_path) ->
     exists self, result o = Ok self /\ is_running self = false /\ effects o = []) /\
  (forall s, main s = Ready -> is_running (obj s) = false ->
     exists s', fire CallStart s = Some s' /\ is_running (obj s') = true /\
       recording_thread (obj s') = Some RecStarting) /\
  (forall s, device_available s = false ->
     recording_thread (obj s) = Some RecStarting ->
     exists s', fire OpenStream s = Some s' /\
       recording_thread (obj s') = Some RecExited /\
       is_running (obj s') = is_running (obj s) /\
       processing_thread (obj s') = processing_thread (obj s)).
Proof.
  intros bin o. subst o. unfold __init__. fold bin.
  unfold bind, os_path_exists. cbn [result final_fs effects].
  split; [|split; [|split; [|split]]].
  - intros Hb. rewrite Hb. split; reflexivity.
  - intros [f Hf] Hmod. rewrite Hf. cbn. rewrite Hmod. split; reflexivity.
  - intros [f Hf] [g Hg]. rewrite Hf. cbn. rewrite Hg. cbn.
    eexists. repeat split.
  - intros s Hm Hr. unfold fire. rewrite start_paths, Hm, Hr. cbn [result].
    eexists. split; [reflexivity|]. cbn. auto.
  - intros s Hdev Ht. unfold fire. rewrite Ht, (stream_opens_no_device s Hdev).
    destruct (main s); eexists; (split; [reflexivity|]); cbn; auto.
Qed.

(** ** Facts about the numeric code *)

Lemma digits2_log2 p : Zpos (digits2_pos p) = Z.log2 (Zpos p) + 1.
Proof.
  induction p as [p IH|p IH|]; cbn [digits2_pos].
  - rewrite Pos2Z.inj_succ, IH.
    change (Zpos p~1) with (2 * Zpos p + 1). rewrite Z.log2_succ_double by lia. lia.
  - rewrite Pos2Z.inj_succ, IH.
    change (Zpos p~0) with (2 * Zpos p). rewrite Z.log2_double by lia. lia.
  - reflexivity.
Qed.

Lemma div_eucl_eq a b : Z.div_eucl a b = (a / b, a mod b).
Proof. unfold Z.div, Z.modulo. destruct (Z.div_eucl a b). reflexivity. Qed.

Lemma iter_pos_nat {A} (f : A -> A) p x :
  SpecFloat.iter_pos f p x = Nat.iter (Pos.to_nat p) f x.
Proof.
  revert x. induction p as [p IH|p IH|]; intros x; cbn [SpecFloat.iter_pos].
  - rewrite !IH. rewrite Pos2Nat.inj_xI, Nat.iter_succ_r.
    replace (2 * Pos.to_nat p)%nat with (Pos.to_nat p + Pos.to_nat p)%nat by lia.
    rewrite Nat.iter_add. reflexivity.
  - rewrite !IH. rewrite Pos2Nat.inj_xO.
    replace (2 * Pos.to_nat p)%nat with (Pos.to_nat p + Pos.to_nat p)%nat by lia.
    rewrite Nat.iter_add. reflexivity.
  - reflexivity.
Qed.

Lemma shr_1_spec mrs :
  0 <= shr_m mrs ->
  shr_m (shr_1 mrs) = shr_m mrs / 2 /\
  shr_r (shr_1 mrs) = Z.odd (shr_m mrs) /\
  shr_s (shr_1 mrs) = (shr_r mrs || shr_s mrs)%bool.
Proof.
  destruct mrs as [m r s]. cbn [shr_m shr_r shr_s]. intros Hm.
  destruct m as [|[p|p|]|p]; cbn [shr_1 shr_m shr_r shr_s]; try lia.
  - repeat split. 
  - repeat split. rewrite Pos2Z.inj_xI. rewrite (Z.mul_comm 2), Z.div_add_l by lia.
    reflexivity.
  - repeat split. rewrite Pos2Z.inj_xO. rewrite (Z.mul_comm 2), Z.div_mul by lia.
    reflexivity.
  - repeat split.
Qed.

(** [n] right shifts: the mantissa is divided by [2^n], and nothing is
    recorded as lost when the mantissa was a multiple of [2^n]. *)
Lemma shr_iter n mrs :
  0 <= shr_m mrs ->
  let mrs' := Nat.iter n shr_1 mrs in
  shr_m mrs' = shr_m mrs / 2 ^ Z.of_nat n /\
  (shr_r mrs = false -> shr_s mrs = false -> shr_m mrs mod 2 ^ Z.of_nat n = 0 ->
   shr_r mrs' = false /\ shr_s mrs' = false).
Proof.
  intros Hm. induction n as [|n IH]; cbn zeta.
  - cbn [Nat.iter]. split; [rewrite Z.div_1_r; reflexivity | auto].
  - change (Nat.iter (S n) shr_1 mrs) with (shr_1 (Nat.iter n shr_1 mrs)).
    cbn zeta in IH. destruct IH as [IHm IHx].
    set (prev := Nat.iter n shr_1 mrs) in *.
    assert (Hp : 0 <= shr_m prev) by (rewrite IHm; apply Z.div_pos; lia).
    destruct (shr_1_spec prev Hp) as (H1 & H2 & H3).
    rewrite Nat2Z.inj_succ, Z.pow_succ_r by lia.
    split.
    + rewrite H1, IHm, Z.div_div by lia. f_equal. lia.
    + intros Hr Hs Hmod.
      assert (Hmod' : shr_m mrs mod 2 ^ Z.of_nat n = 0).
      { apply Z.mod_divide in Hmod; [|lia]. apply Z.mod_divide; [lia|].
        destruct Hmod as [c Hc]. exists (c * 2). lia. }
      destruct (IHx Hr Hs Hmod') as [Hr' Hs'].
      rewrite H2, H3, Hr', Hs', IHm. split; [|reflexivity].
      apply Z.mod_divide in Hmod; [|lia]. destruct Hmod as [c Hc].
      rewrite Hc. replace (c * (2 * 2 ^ Z.of_nat n)) with (c * 2 * 2 ^ Z.of_nat n) by ring.
      rewrite Z.div_mul by lia. rewrite Z.mul_comm. rewrite Z.odd_mul. reflexivity.
Qed.

Section Rounding.
Variables prec emax : Z.
Hypothesis prec_pos : 2 <= prec.
Hypothesis prec_emax : prec <= emax.

(** A mantissa that already has the digits its exponent asks for is kept. *)
Lemma round_aux_canonical sx m e :
  fexp prec emax (Zpos (digits2_pos m) + e) = e ->
  e <= emax - prec ->
  binary_round_aux prec emax sx (Zpos m) e loc_Exact = S754_finite sx m e.
Proof.
  intros Hfexp Hmax. unfold binary_round_aux, shr_fexp.
  cbn [Zdigits2 shr_record_of_loc]. rewrite Hfexp, Z.sub_diag.
  cbn [shr shr_m loc_of_shr_record round_nearest_even Zdigits2 shr_record_of_loc].
  rewrite Hfexp, Z.sub_diag. cbn [shr shr_m].
  apply Z.leb_le in Hmax. rewrite Hmax. reflexivity.
Qed.

Lemma round_aux_double sx m e :
  fexp prec emax (Zpos (digits2_pos m) + (e + 1)) = e + 1 ->
  e + 1 <= emax - prec ->
  binary_round_aux prec emax sx (Zpos m~0) e loc_Exact = S754_finite sx m (e + 1).
Proof.
  intros Hfexp Hmax. unfold binary_round_aux, shr_fexp.
  cbn [Zdigits2 shr_record_of_loc digits2_pos].
  replace (Zpos (Pos.succ (digits2_pos m)) + e) with (Zpos (digits2_pos m) + (e + 1))
    by (rewrite Pos2Z.inj_succ; lia).
  rewrite Hfexp. replace (e + 1 - e) with 1 by lia.
  cbn [shr SpecFloat.iter_pos shr_1 orb shr_m loc_of_shr_record round_nearest_even Zdigits2
       shr_record_of_loc].
  rewrite Hfexp, Z.sub_diag. cbn [shr shr_m].
  apply Z.leb_le in Hmax. rewrite Hmax. reflexivity.
Qed.
Lemma shr_fexp_exact m e :
  0 <= m ->
  exists k, 0 <= k /\
    snd (shr_fexp prec emax m e loc_Exact) = e + k /\
    (k = 0 \/ e + k = fexp prec emax (Zdigits2 m + e)) /\
    shr_m (fst (shr_fexp prec emax m e loc_Exact)) = m / 2 ^ k /\
    (m mod 2 ^ k = 0 ->
     loc_of_shr_record (fst (shr_fexp prec emax m e loc_Exact)) = loc_Exact).
Proof.
  intros Hm. unfold shr_fexp, shr.
  destruct (fexp prec emax (Zdigits2 m + e) - e) as [|p|p] eqn:Hk.
  - exists 0. cbn [fst snd shr_record_of_loc shr_m loc_of_shr_record].
    rewrite Z.div_1_r. repeat split; auto; lia.
  - exists (Zpos p). cbn [fst snd shr_record_of_loc].
    rewrite iter_pos_nat.
    destruct (shr_iter (Pos.to_nat p) (Build_shr_record m false false) Hm) as [H1 H2].
    cbn zeta in H1, H2. cbn [shr_m shr_r shr_s] in H1, H2.
    rewrite positive_nat_Z in H1, H2.
    repeat split; auto; try lia.
    intros Hmod. destruct (H2 eq_refl eq_refl Hmod) as [Hr Hs].
    destruct (Nat.iter (Pos.to_nat p) shr_1 (Build_shr_record m false false)) as [m' r' s'].
    cbn [shr_r shr_s] in Hr, Hs. subst. reflexivity.
  - exists 0. cbn [fst snd shr_record_of_loc shr_m loc_of_shr_record].
    rewrite Z.div_1_r. repeat split; auto; lia.
Qed.

Lemma round_nearest_even_bounds m l :
  m <= round_nearest_even m l <= m + 1 /\
  (l = loc_Exact -> round_nearest_even m l = m).
Proof.
  unfold round_nearest_even. destruct l as [|[]]; try destruct (Z.even m);
    split; try lia; intros; try discriminate; reflexivity.
Qed.

Lemma fexp_nonpos B m e :
  0 < B < 2 ^ prec -> e <= 0 -> 0 <= m <= B * 2 ^ (- e) ->
  fexp prec emax (Zdigits2 m + e) <= 0.
Proof.
  intros HB He Hm. unfold fexp, emin.
  destruct m as [|p|p]; cbn [Zdigits2]; try lia.
  rewrite digits2_log2.
  assert (Hlog : Z.log2 (Zpos p) < prec - e).
  { apply Z.log2_lt_pow2; [lia|].
    replace (prec - e) with (prec + - e) by lia.
    rewrite Z.pow_add_r by lia.
    assert (0 < 2 ^ (- e)) by (apply Z.pow_pos_nonneg; lia). nia. }
  lia.
Qed.

(** Rounding a product that does not exceed the integer [B] (itself below
    [2^prec]) gives zero or a finite float that does not exceed [B]. *)
Lemma round_aux_le sx M E B :
  0 < B < 2 ^ prec -> E <= 0 -> Zpos M <= B * 2 ^ (- E) ->
  match binary_round_aux prec emax sx (Zpos M) E loc_Exact with
  | S754_zero s => s = sx
  | S754_finite s m e => s = sx /\ e <= 0 /\ Zpos m <= B * 2 ^ (- e)
  | _ => False
  end.
Proof.
  intros HB HE HM. unfold binary_round_aux.
  destruct (shr_fexp_exact (Zpos M) E ltac:(lia)) as (k1 & Hk1 & He1 & Hor1 & Hm1 & Hx1).
  destruct (shr_fexp prec emax (Zpos M) E loc_Exact) as [mrs1 e1].
  cbn [fst snd] in He1, Hm1, Hx1. subst e1.
  assert (Hpow1 : 0 < 2 ^ k1) by (apply Z.pow_pos_nonneg; lia).
  assert (He1 : E + k1 <= 0).
  { destruct Hor1 as [Hz|Hz]; [lia|]. rewrite Hz. apply (fexp_nonpos B); auto. lia. }
  assert (Hsplit : B * 2 ^ (- E) = B * 2 ^ (- (E + k1)) * 2 ^ k1).
  { rewrite <- Z.mul_assoc, <- Z.pow_add_r by lia. do 2 f_equal. lia. }
  assert (Hm1le : shr_m mrs1 <= B * 2 ^ (- (E + k1))).
  { rewrite Hm1. apply Z.div_le_upper_bound; [lia|]. rewrite Z.mul_comm, <- Hsplit. exact HM. }
  assert (Hm1pos : 0 <= shr_m mrs1) by (rewrite Hm1; apply Z.div_pos; lia).
  set (m2 := round_nearest_even (shr_m mrs1) (loc_of_shr_record mrs1)).
  assert (Hm2 : 0 <= m2 <= B * 2 ^ (- (E + k1))).
  { destruct (round_nearest_even_bounds (shr_m mrs1) (loc_of_shr_record mrs1)) as [Hb Hex].
    fold m2 in Hb, Hex.
    destruct (Z.eq_dec (Zpos M mod 2 ^ k1) 0) as [Hz|Hnz].
    - rewrite (Hex (Hx1 Hz)). lia.
    - assert (shr_m mrs1 < B * 2 ^ (- (E + k1))); [|lia].
      apply Z.le_neq. split; [exact Hm1le|]. intros Heq. apply Hnz.
      assert (Zpos M = B * 2 ^ (- (E + k1)) * 2 ^ k1).
      { apply Z.le_antisymm; [lia|].
        rewrite <- Heq, Hm1, Z.mul_comm. apply Z.mul_div_le. lia. }
      rewrite H. apply Z.mod_mul. lia. }
  destruct (shr_fexp_exact m2 (E + k1) ltac:(lia)) as (k2 & Hk2 & He2 & Hor2 & Hm3 & _).
  destruct (shr_fexp prec emax m2 (E + k1) loc_Exact) as [mrs2 e2].
  cbn [fst snd] in He2, Hm3. subst e2.
  assert (Hpow2 : 0 < 2 ^ k2) by (apply Z.pow_pos_nonneg; lia).
  assert (He2 : E + k1 + k2 <= 0).
  { destruct Hor2 as [Hz|Hz]; [lia|]. rewrite Hz. apply (fexp_nonpos B); auto. }
  assert (Hsplit2 : B * 2 ^ (- (E + k1)) = B * 2 ^ (- (E + k1 + k2)) * 2 ^ k2).
  { rewrite <- Z.mul_assoc, <- Z.pow_add_r by lia. do 2 f_equal. lia. }
  assert (Hm3le : shr_m mrs2 <= B * 2 ^ (- (E + k1 + k2))).
  { rewrite Hm3. apply Z.div_le_upper_bound; [lia|]. rewrite Z.mul_comm, <- Hsplit2. lia. }
  assert (Hm3pos : 0 <= shr_m mrs2) by (rewrite Hm3; apply Z.div_pos; lia).
  destruct (shr_m mrs2) as [|m3|m3]; [reflexivity | | lia].
  replace (E + k1 + k2 <=? emax - prec)%Z with true by (symmetry; apply Z.leb_le; lia).
  auto.
Qed.
End Rounding.

Lemma new_location_zero n : new_location n 0 = loc_Exact.
Proof. unfold new_location. destruct (Z.even n); reflexivity. Qed.

Lemma shift_match a s :
  0 <= s ->
  match s with
  | Zpos _ => Z.shiftl a s
  | Z0 => a
  | Zneg _ => 0
  end = a * 2 ^ s.
Proof.
  intros Hs. destruct s as [|p|p].
  - cbn. lia.
  - apply Z.shiftl_mul_pow2. lia.
  - lia.
Qed.

Lemma div_core_exact pa pb q :
  Zpos pa = q * Zpos pb -> 0 < q < 2 ^ 53 ->
  let x := Z.log2 (Zpos pa) - Z.log2 (Zpos pb) in
  SFdiv_core_binary 53 1024 (Zpos pa) 0 (Zpos pb) 0 = (q * 2 ^ (53 - x), x - 53, loc_Exact).
Proof.
  intros Ha Hq x.
  assert (Hlq : Z.log2 q < 53) by (apply Z.log2_lt_pow2; lia).
  assert (Hlow : Z.log2 q + Z.log2 (Zpos pb) <= Z.log2 (Zpos pa))
    by (rewrite Ha; apply Z.log2_mul_below; lia).
  assert (Hx0 : 0 <= x) by (pose proof (Z.log2_nonneg q); lia).
  assert (Hx53 : x <= 53).
  { pose proof (Z.log2_mul_above q (Zpos pb) ltac:(lia) ltac:(lia)) as H.
    rewrite <- Ha in H. lia. }
  unfold SFdiv_core_binary. cbn [Zdigits2]. rewrite !digits2_log2.
  replace (fexp 53 1024 (Z.log2 (Zpos pa) + 1 + 0 - (Z.log2 (Zpos pb) + 1 + 0)))
    with (x - 53) by (unfold fexp, emin; lia).
  replace (Z.min (x - 53) (0 - 0)) with (x - 53) by lia.
  replace (0 - 0 - (x - 53)) with (53 - x) by lia.
  rewrite shift_match by lia.
  rewrite div_eucl_eq.
  replace (Zpos pa * 2 ^ (53 - x)) with (q * 2 ^ (53 - x) * Zpos pb) by (rewrite Ha; ring).
  rewrite Z.div_mul by lia. rewrite Z.mod_mul by lia.
  rewrite new_location_zero. reflexivity.
Qed.

Lemma pos_of_Z z : 0 < z -> Zpos (Z.to_pos z) = z.
Proof. intros. apply Z2Pos.id. lia. Qed.

(** The binary64 quotient of [q * b] by [b] is [q] itself, for [q] below
    [2^53]. *)
Lemma div_exact pa pb q :
  Zpos pa = q * Zpos pb -> 0 < q < 2 ^ 53 ->
  SFdiv 53 1024 (S754_finite false pa 0) (S754_finite false pb 0) =
  S754_finite false (Z.to_pos (q * 2 ^ (52 - Z.log2 q))) (Z.log2 q - 52).
Proof.
  intros Ha Hq.
  assert (Hlq : Z.log2 q < 53) by (apply Z.log2_lt_pow2; lia).
  pose proof (Z.log2_nonneg q) as Hlq0.
  assert (Hlow : Z.log2 q + Z.log2 (Zpos pb) <= Z.log2 (Zpos pa))
    by (rewrite Ha; apply Z.log2_mul_below; lia).
  assert (Hup : Z.log2 (Zpos pa) <= Z.log2 q + Z.log2 (Zpos pb) + 1).
  { pose proof (Z.log2_mul_above q (Zpos pb) ltac:(lia) ltac:(lia)) as H.
    rewrite <- Ha in H. exact H. }
  unfold SFdiv. rewrite (div_core_exact pa pb q Ha Hq). cbv zeta. cbn [xorb].
  set (k := 52 - Z.log2 q).
  assert (Hk : 0 <= k) by (unfold k; lia).
  assert (Hpow : 0 < 2 ^ k) by (apply Z.pow_pos_nonneg; lia).
  assert (Hdig : Zpos (digits2_pos (Z.to_pos (q * 2 ^ k))) = 53).
  { rewrite digits2_log2, pos_of_Z by nia.
    rewrite Z.log2_mul_pow2 by lia. unfold k. lia. }
  assert (Hcase : Z.log2 (Zpos pa) - Z.log2 (Zpos pb) = Z.log2 q + 1 \/
                  Z.log2 (Zpos pa) - Z.log2 (Zpos pb) = Z.log2 q) by lia.
  destruct Hcase as [Hx|Hx]; rewrite Hx.
  - replace (53 - (Z.log2 q + 1)) with k by (unfold k; lia).
    replace (Z.log2 q + 1 - 53) with (Z.log2 q - 52) by lia.
    rewrite <- (pos_of_Z (q * 2 ^ k)) at 1 by nia.
    apply round_aux_canonical.
    + rewrite Hdig. unfold fexp, emin. lia.
    + lia.
  - replace (53 - Z.log2 q) with (k + 1) by (unfold k; lia).
    replace (q * 2 ^ (k + 1)) with (Zpos (Z.to_pos (q * 2 ^ k))~0).
    2:{ rewrite Pos2Z.inj_xO, pos_of_Z by nia. rewrite Z.pow_add_r by lia. ring. }
    replace (Z.log2 q - 52) with (Z.log2 q - 53 + 1) by lia.
    apply round_aux_double.
    + rewrite Hdig. unfold fexp, emin. lia.
    + lia.
Qed.

Lemma truediv_exact q b :
  0 < b -> 0 < q < 2 ^ 53 ->
  truediv (q * b) b =
  inr (S754_finite false (Z.to_pos (q * 2 ^ (52 - Z.log2 q))) (Z.log2 q - 52)).
Proof.
  intros Hb Hq. unfold truediv.
  replace (b =? 0)%Z with false by (symmetry; apply Z.eqb_neq; lia).
  destruct b as [|pb|pb]; try lia.
  destruct (q * Zpos pb) as [|pa|pa] eqn:Ha; try nia.
  cbn [exact_of_int]. rewrite (div_exact pa pb q) by auto. reflexivity.
Qed.

Lemma int_of_float_exact q :
  0 < q < 2 ^ 53 ->
  int_of_float (S754_finite false (Z.to_pos (q * 2 ^ (52 - Z.log2 q))) (Z.log2 q - 52)) =
  inr q.
Proof.
  intros Hq.
  assert (Hlq : Z.log2 q < 53) by (apply Z.log2_lt_pow2; lia).
  pose proof (Z.log2_nonneg q) as Hlq0.
  assert (Hpow : 0 < 2 ^ (52 - Z.log2 q)) by (apply Z.pow_pos_nonneg; lia).
  unfold int_of_float, trunc. cbn [cond_Zopp]. cbv iota beta.
  rewrite pos_of_Z by nia.
  rewrite Z.shiftl_div_pow2 by lia.
  replace (- (Z.log2 q - 52)) with (52 - Z.log2 q) by lia.
  rewrite Z.div_mul by lia. reflexivity.
Qed.

(** [int(len * target / rate)] when the quotient is the whole number [q]. *)
Lemma num_samples_whole self audio_array q :
  0 < sample_rate self ->
  Z.of_nat (length audio_array) * target_sample_rate self = q * sample_rate self ->
  0 <= q < 2 ^ 53 ->
  num_samples self audio_array = inr q.
Proof.
  intros Hrate Hwhole Hq. unfold num_samples. rewrite Hwhole.
  destruct (Z.eq_dec q 0) as [->|Hnz].
  - destruct (sample_rate self) as [|p|p]; try lia. reflexivity.
  - rewrite truediv_exact by lia. apply int_of_float_exact. lia.
Qed.



Lemma to_int16_length l : length (to_int16 l) = length l.
Proof. apply length_map. Qed.

Lemma resample_and_quantize_rates self1 self2 c :
  sample_rate self1 = sample_rate self2 ->
  target_sample_rate self1 = target_sample_rate self2 ->
  resample_and_quantize self1 c = resample_and_quantize self2 c.
Proof.
  intros H1 H2. unfold resample_and_quantize, num_samples. rewrite H1, H2. reflexivity.
Qed.


(** A whole, positive resampled length is the length of the result. *)
Lemma resample_and_quantize_whole self c q :
  0 < sample_rate self ->
  Z.of_nat (length (flatten c)) * target_sample_rate self = q * sample_rate self ->
  0 < q < 2 ^ 53 ->
  exists pcm,
    resample_and_quantize self c = inr pcm /\
    Z.of_nat (length pcm) = q.
Proof.
  intros Hrate Hwhole Hq.
  unfold resample_and_quantize. cbv zeta.
  rewrite (num_samples_whole self (flatten c) q) by (auto; lia).
  destruct (flatten c) as [|x xs] eqn:Hflat.
  { cbn in Hwhole. nia. }
  destruct (resample_length (x :: xs) q) as (y & Hy & Hlen); [discriminate | lia |].
  unfold resample. rewrite Hy.
  eexists. split; [reflexivity|]. rewrite to_int16_length, Hlen. lia.
Qed.


(** X20: the samples and the rate written to the WAV file depend on the
    chunk and the two rates only: two calls of [_transcribe_chunk] on the
    same chunk with the same two rates write the same data, whatever the
    file systems, the temporary file names, the other attributes of the
    object and the answers of the outside world in the two calls. *)
Theorem written_samples_ignore_environment
    self1 self2 env1 env2 fs1 fs2 c f1 r1 d1 f2 r2 d2 :
  sample_rate self1 = sample_rate self2 ->
  target_sample_rate self1 = target_sample_rate self2 ->
  In (WavWrite f1 r1 d1) (effects (_transcribe_chunk self1 env1 c fs1)) ->
  In (WavWrite f2 r2 d2) (effects (_transcribe_chunk self2 env2 c fs2)) ->
  r1 = r2 /\ d1 = d2 /\ resample_and_quantize self1 c = inr d1.
Proof.
  intros Hs Ht H1 H2.
  assert (Hw : forall self env fs f r d,
             In (WavWrite f r d) (effects (_transcribe_chunk self env c fs)) ->
             r = target_sample_rate self /\ resample_and_quantize self c = inr d).
  { clear. intros self env fs f r d Hin. rewrite transcribe_paths in Hin.
    unfold timeout_report in Hin.
    destruct (env_tmpfile env) as [e|name].
    { destruct (is_TimeoutExpired e); cbn in Hin; intuition discriminate. }
    destruct (fs !! name); [cbn in Hin; contradiction|].
    destruct (resample_and_quantize self c) as [e|pcm].
    { destruct (is_TimeoutExpired e); cbn in Hin; intuition discriminate. }
    destruct (env_wav_write env) as [e|].
    { destruct (is_TimeoutExpired e); cbn in Hin; intuition discriminate. }
    assert (Hgoal : WavWrite name (target_sample_rate self) pcm = WavWrite f r d ->
                    r = target_sample_rate self /\ inr pcm = (inr d : exn + list Z)).
    { intros Heq. injection Heq as _ <- <-. auto. }
    destruct (env_run env) as [e|[rc out]].
    { destruct (is_TimeoutExpired e); cbn in Hin; intuition discriminate. }
    destruct (rc =? 0)%Z; cbn in Hin; intuition discriminate. }
  destruct (Hw _ _ _ _ _ _ H1) as [Hr1 Hd1].
  destruct (Hw _ _ _ _ _ _ H2) as [Hr2 Hd2].
  rewrite (resample_and_quantize_rates self1 self2 c Hs Ht) in Hd1.
  split; [congruence|]. split; [congruence|].
  rewrite (resample_and_quantize_rates self1 self2 c Hs Ht). exact Hd1.
Qed.

Lemma unit_range_finite s m e :
  f32_valid (S754_finite s m e) = true ->
  in_unit_range (S754_finite s m e) = true ->
  e <= 0 /\ Zpos m <= 2 ^ (- e).
Proof.
  unfold f32_valid, valid_binary, bounded, canonical_mantissa, in_unit_range.
  intros Hv Hu. apply andb_prop in Hv as [Hc _]. apply Z.eqb_eq in Hc.
  assert (Hm : Zpos m < 2 ^ 24).
  { apply Z.log2_lt_pow2; [lia|]. rewrite digits2_log2 in Hc.
    unfold fexp, emin in Hc. lia. }
  change (f32_of_int 1) with (S754_finite false 8388608 (-23)) in Hu.
  change (f32_of_int (-1)) with (S754_finite true 8388608 (-23)) in Hu.
  assert (Hcmp : e < -23 \/ (e = -23 /\ Zpos m <= 8388608)).
  { destruct s; unfold SFleb, SFcompare in Hu; cbn [andb] in Hu.
    - rewrite andb_true_r in Hu.
      destruct (Z.compare_spec (-23) e) as [He|He|He]; try discriminate.
      + right. split; [lia|].
        destruct (Pos.compare_cont Eq 8388608 m) eqn:Hp; try discriminate;
          cbn in Hu; try discriminate.
        * change (Pos.compare 8388608 m = Eq) in Hp.
          apply Pos.compare_eq in Hp. subst. lia.
        * change (Z.compare 8388608 (Zpos m) = Gt) in Hp.
          pose proof (Z.compare_spec 8388608 (Zpos m)) as Hs. rewrite Hp in Hs.
          inversion Hs. lia.
      + left. lia.
    - cbn [andb] in Hu.
      destruct (Z.compare_spec e (-23)) as [He|He|He]; try discriminate.
      + right. split; [lia|].
        destruct (Pos.compare_cont Eq m 8388608) eqn:Hp; try discriminate.
        * change (Pos.compare m 8388608 = Eq) in Hp. apply Pos.compare_eq in Hp. subst. lia.
        * change (Z.compare (Zpos m) 8388608 = Lt) in Hp.
          pose proof (Z.compare_spec (Zpos m) 8388608) as Hs. rewrite Hp in Hs.
          inversion Hs. lia.
      + left. lia. }
  destruct Hcmp as [He|[He Hle]].
  - split; [lia|].
    assert (2 ^ 24 <= 2 ^ (- e)) by (apply Z.pow_le_mono_r; lia). lia.
  - subst e. split; [lia|]. exact Hle.
Qed.

Lemma trunc_le_bound s m e B :
  0 <= B -> e <= 0 -> Zpos m <= B * 2 ^ (- e) ->
  exists z, trunc (S754_finite s m e) = Some z /\ - B <= z <= B.
Proof.
  intros HB He Hm. unfold trunc. eexists. split; [reflexivity|].
  rewrite Z.shiftl_div_pow2 by lia.
  assert (Hpow : 0 < 2 ^ (- e)) by (apply Z.pow_pos_nonneg; lia).
  assert (H0 : 0 <= Zpos m / 2 ^ (- e)) by (apply Z.div_pos; lia).
  assert (H1 : Zpos m / 2 ^ (- e) <= B).
  { apply Z.div_le_upper_bound; [lia|]. rewrite Z.mul_comm. exact Hm. }
  destruct s; cbn [cond_Zopp]; lia.
Qed.

(** ** Further facts about the per-chunk code *)

Lemma lstrip_all_space s : all_space s = true -> lstrip s = "".
Proof.
  remember (String.length s) as n eqn:Hn. revert s Hn.
  induction n as [n IH] using lt_wf_ind. intros s Hn.
  destruct s as [|a s1]; [reflexivity|].
  cbn [all_space lstrip]. cbn [String.length] in Hn.
  destruct (isspace a).
  { apply (IH (String.length s1)); [lia | reflexivity]. }
  destruct s1 as [|b s2]; [discriminate|]. cbn [String.length] in Hn.
  destruct (isspace2 a b).
  { apply (IH (String.length s2)); [lia | reflexivity]. }
  destruct s2 as [|c s3]; [discriminate|]. cbn [String.length] in Hn.
  intros H. apply andb_prop in H as [H3 Hs]. rewrite H3.
  apply (IH (String.length s3)); [lia | reflexivity | exact Hs].
Qed.

Lemma strip_all_space s : all_space s = true -> strip s = "".
Proof. intros H. unfold strip. rewrite lstrip_all_space by exact H. reflexivity. Qed.

Lemma prefix_append n b : String.prefix n (n +:+ b) = true.
Proof.
  induction n as [|c n IH].
  - destruct b; reflexivity.
  - change (String c n +:+ b) with (String c (n +:+ b)). cbn [String.prefix].
    destruct (ascii_dec c c) as [_|Hne]; [exact IH | contradiction].
Qed.

Lemma contains_append n a b : contains n (a +:+ n +:+ b) = true.
Proof.
  induction a as [|c a IH].
  - change ("" +:+ n +:+ b) with (n +:+ b).
    assert (H : forall h, String.prefix n h = true -> contains n h = true).
    { intros h Hp. destruct h; cbn [contains]; rewrite Hp; reflexivity. }
    apply H, prefix_append.
  - change (String c a +:+ n +:+ b) with (String c (a +:+ n +:+ b)).
    cbn [contains]. rewrite IH. apply orb_true_r.
Qed.

(** X1: [_translate_text] never raises and leaves the file system alone;
    it makes exactly one request, carrying the prompt built from the text;
    and it returns a translation exactly when the request came back with a
    status outside 400..599 and a readable body, the translation being
    that body stripped. *)
Theorem translate_text_result env text fs :
  let o := _translate_text env text fs in
  final_fs o = fs /\
  (forall e, result o <> Raise e) /\
  List.filter is_post (effects o) = [Post generate_url LLM_MODEL (prompt_for text)] /\
  (forall t, result o = Ok (Some t) <->
     exists r body,
       env_post env = inr r /\
       ((400 <=? status_code r) && (status_code r <? 600))%Z = false /\
       json_response r = inr body /\
       t = strip body).
Proof.
  cbv zeta. rewrite translate_paths. cbv zeta. unfold translation_report.
  destruct (env_post env) as [e|r].
  { destruct (is_RequestException e); cbn -[prompt_for];
      repeat split; try congruence; try discriminate.
    all: intros (r & body & H & _); discriminate. }
  destruct ((400 <=? status_code r) && (status_code r <? 600))%Z eqn:Hs.
  { cbn -[prompt_for]; repeat split; try congruence; try discriminate.
    intros (r' & body & H & H' & _). injection H as <-. congruence. }
  destruct (json_response r) as [e|body] eqn:Hj.
  { destruct (is_RequestException e); cbn -[prompt_for];
      repeat split; try congruence; try discriminate.
    all: intros (r' & body & H & _ & H' & _); injection H as <-; congruence. }
  cbn -[prompt_for]. repeat split; try congruence; try discriminate.
  - intros H. injection H as <-. exists r, body. auto.
  - intros (r' & body' & H & _ & H' & ->). injection H as <-.
    rewrite Hj in H'. injection H' as <-. reflexivity.
Qed.

(** X2: when the temporary file cannot be created, [_transcribe_chunk]
    does not return [None]: its handlers read [tmp_filename], which was
    never assigned, and the [UnboundLocalError] of that read leaves the
    function.  The loop of the worker catches it and prints it on an
    "Error processing chunk" line; the engine is not run and the file
    system is not touched. *)
Theorem transcribe_raises_without_tempfile self env c fs e0 :
  env_tmpfile env = inl e0 ->
  let unbound := UnboundLocalError "tmp_filename" in
  _transcribe_chunk self env c fs = Outcome (Raise unbound) fs (timeout_report e0) /\
  loop_body self env (inr c) fs =
  Outcome (Ok tt) fs
    (timeout_report e0 ++ [Print (nl +:+ "Error processing chunk: " +:+ str unbound)]).
Proof.
  intros Htmp unbound.
  assert (H1 : _transcribe_chunk self env c fs =
               Outcome (Raise unbound) fs (timeout_report e0)).
  { rewrite transcribe_paths, Htmp. reflexivity. }
  split; [exact H1|]. rewrite loop_body_paths. cbv zeta. rewrite H1. reflexivity.
Qed.

(** X3: when the engine prints nothing but white space, the chunk has no
    transcription: [_transcribe_chunk] gives no text and the loop requests
    no translation. *)
Theorem silence_is_dropped self env c fs returncode stdout :
  env_run env = inr (returncode, stdout) ->
  all_space stdout = true ->
  (forall text, result (_transcribe_chunk self env c fs) <> Ok (Some text)) /\
  List.filter is_post (effects (loop_body self env (inr c) fs)) = [].
Proof.
  intros Hrun Hspace.
  assert (Hnone : forall text, result (_transcribe_chunk self env c fs) <> Ok (Some text)).
  { intros text. rewrite transcribe_paths, Hrun, strip_all_space by exact Hspace.
    destruct (env_tmpfile env) as [e|name]; [discriminate|].
    destruct (fs !! name); [discriminate|].
    destruct (resample_and_quantize self c); [discriminate|].
    destruct (env_wav_write env); [discriminate|].
    destruct (returncode =? 0)%Z; discriminate. }
  split; [exact Hnone|].
  rewrite loop_body_paths. cbv zeta.
  destruct (transcribe_effects self env c fs) as (_ & Hpost & _).
  cbv zeta in Hpost.
  destruct (result (_transcribe_chunk self env c fs)) as [[text|]|e|code] eqn:Hres.
  - exfalso. exact (Hnone text eq_refl).
  - exact Hpost.
  - cbn [effects]. rewrite List.filter_app, Hpost. destruct (is_Empty e); reflexivity.
  - exact Hpost.
Qed.

(** X4: the blank-audio test is a substring test: a transcription that
    contains the marker anywhere is dropped whole, with no translation
    request and nothing printed. *)
Theorem marker_anywhere_drops self env c fs before after :
  result (_transcribe_chunk self env c fs) =
    Ok (Some (before +:+ "[BLANK_AUDIO]" +:+ after)) ->
  let o := loop_body self env (inr c) fs in
  result o = Ok tt /\
  List.filter is_post (effects o) = [] /\
  List.filter is_print (effects o) = [].
Proof.
  intros Hres. apply (blank_marker_drops self env c fs _ Hres). apply contains_append.
Qed.

(** X5: when both stages succeed on a transcription without the marker,
    the loop writes the WAV file, runs the engine on it, requests the
    translation of the stripped transcription and prints the stripped
    answer, wrapped, after one space; an empty answer is not printed.  The
    file system is left as it was. *)
Theorem translation_is_printed self env c fs name pcm stdout r body :
  env_tmpfile env = inr name ->
  fs !! name = None ->
  resample_and_quantize self c = inr pcm ->
  env_wav_write env = None ->
  env_run env = inr (0, stdout) ->
  strip stdout <> "" ->
  contains "[BLANK_AUDIO]" (strip stdout) = false ->
  env_post env = inr r ->
  ((400 <=? status_code r) && (status_code r <? 600))%Z = false ->
  json_response r = inr body ->
  let o := loop_body self env (inr c) fs in
  result o = Ok tt /\
  final_fs o = fs /\
  effects o =
    ([WavWrite name (target_sample_rate self) pcm;
      Run (whisper_cmd self name);
      Post generate_url LLM_MODEL (prompt_for (strip stdout))] ++
     (if String.eqb (strip body) "" then []
      else [Print (textwrap_fill (" " +:+ strip body))]))%list.
Proof.
  intros Htmp Hfresh Hpcm Hwav Hrun Htext Hmark Hpost Hstatus Hbody o. subst o.
  assert (Htruthy : truthy (Some (strip stdout)) = true).
  { cbn. destruct (String.eqb_spec (strip stdout) ""); [contradiction | reflexivity]. }
  rewrite loop_body_paths. cbv zeta.
  rewrite transcribe_paths, Htmp, Hfresh, Hpcm, Hwav, Hrun. cbn [Z.eqb].
  cbn [result final_fs effects]. rewrite Htruthy, Hmark. cbn [negb andb].
  rewrite translate_paths. cbv zeta. rewrite Hpost, Hstatus, Hbody.
  cbn [result final_fs effects truthy]. cbn [truthy] in Htruthy. rewrite ?Htruthy.
  destruct (String.eqb (strip body) ""); cbn [negb andb result final_fs effects app]; auto.
Qed.

(** X7: whenever the engine is run, it is run on the temporary file of
    this call, with the model of the object and the fixed options, right
    after the resampled samples were written to that file at the target
    rate; nothing follows the run except the timeout line. *)
Theorem engine_reads_what_was_written self env c fs cmd :
  In (Run cmd) (effects (_transcribe_chunk self env c fs)) ->
  exists name pcm rest,
    env_tmpfile env = inr name /\
    resample_and_quantize self c = inr pcm /\
    cmd = [binary_path self; "-f"; name; "-m"; model_path self;
           "-l"; "en"; "-t"; "4"; "-nt"] /\
    effects (_transcribe_chunk self env c fs) =
      WavWrite name (target_sample_rate self) pcm :: Run cmd :: rest /\
    (rest = [] \/ rest = [Print timeout_line]).
Proof.
  rewrite transcribe_paths. unfold timeout_report.
  destruct (env_tmpfile env) as [e|name].
  { destruct (is_TimeoutExpired e); cbn; intuition discriminate. }
  destruct (fs !! name); [cbn; contradiction|].
  destruct (resample_and_quantize self c) as [e|pcm].
  { destruct (is_TimeoutExpired e); cbn; intuition discriminate. }
  destruct (env_wav_write env) as [e|].
  { destruct (is_TimeoutExpired e); cbn; intuition discriminate. }
  assert (Hcmd : forall rest,
             (rest = [] \/ rest = [Print timeout_line]) ->
             In (Run cmd) (WavWrite name (target_sample_rate self) pcm
                           :: Run (whisper_cmd self name) :: rest) ->
             exists name0 pcm0 rest0,
               (inr name : exn + string) = inr name0 /\
               (inr pcm : exn + list Z) = inr pcm0 /\
               cmd = [binary_path self; "-f"; name0; "-m"; model_path self;
                      "-l"; "en"; "-t"; "4"; "-nt"] /\
               WavWrite name (target_sample_rate self) pcm
                 :: Run (whisper_cmd self name) :: rest =
               WavWrite name0 (target_sample_rate self) pcm0 :: Run cmd :: rest0 /\
               (rest0 = [] \/ rest0 = [Print timeout_line])).
  { intros rest Hrest [H|[H|H]]; [discriminate| |].
    - injection H as <-. exists name, pcm, rest. auto.
    - destruct Hrest as [->| ->]; [contradiction|].
      destruct H as [H|[]]. discriminate. }
  destruct (env_run env) as [e|[rc out]].
  { destruct (is_TimeoutExpired e); cbn [app]; apply Hcmd; auto. }
  destruct (rc =? 0)%Z; cbn [effects]; apply Hcmd; auto.
Qed.

(** ** Facts about the paths and the command loop *)

Lemma append_cons c a b : String c a +:+ b = String c (a +:+ b).
Proof. reflexivity. Qed.

Lemma append_nil_r s : s +:+ "" = s.
Proof. induction s as [|c s IH]; [reflexivity|]. rewrite append_cons, IH. reflexivity. Qed.

Lemma append_assoc a b c : (a +:+ b) +:+ c = a +:+ b +:+ c.
Proof.
  induction a as [|x a IH]; [reflexivity|]. rewrite !append_cons, IH. reflexivity.
Qed.

Lemma rev_onto_spec s acc : rev_onto s acc = string_rev s +:+ acc.
Proof.
  unfold string_rev. revert acc. induction s as [|c s IH]; intros acc; [reflexivity|].
  cbn [rev_onto]. rewrite IH, (IH (String c "")), append_assoc. reflexivity.
Qed.

Lemma string_rev_cons c s : string_rev (String c s) = string_rev s +:+ String c "".
Proof. unfold string_rev at 1. cbn [rev_onto]. apply rev_onto_spec. Qed.

Lemma string_rev_app a b : string_rev (a +:+ b) = string_rev b +:+ string_rev a.
Proof.
  induction a as [|c a IH].
  - cbn. rewrite append_nil_r. reflexivity.
  - change (String c a +:+ b) with (String c (a +:+ b)).
    rewrite !string_rev_cons, IH, append_assoc. reflexivity.
Qed.

Lemma string_rev_involutive s : string_rev (string_rev s) = s.
Proof.
  induction s as [|c s IH]; [reflexivity|].
  rewrite string_rev_cons, string_rev_app, IH. reflexivity.
Qed.

Lemma slash_free_app a b : slash_free (a +:+ b) = slash_free a && slash_free b.
Proof.
  induction a as [|c a IH]; [reflexivity|].
  change (String c a +:+ b) with (String c (a +:+ b)). cbn [slash_free].
  rewrite IH, andb_assoc. reflexivity.
Qed.

Lemma slash_free_rev s : slash_free (string_rev s) = slash_free s.
Proof.
  induction s as [|c s IH]; [reflexivity|].
  rewrite string_rev_cons, slash_free_app, IH. cbn [slash_free].
  rewrite andb_true_r. apply andb_comm.
Qed.

Lemma drop_to_slash_app a b :
  slash_free a = true -> drop_to_slash (a +:+ String "/" b) = String "/" b.
Proof.
  induction a as [|c a IH]; intros H; [reflexivity|].
  cbn [slash_free] in H. apply andb_prop in H as [Hc Ha].
  change (String c a +:+ String "/" b) with (String c (a +:+ String "/" b)).
  cbn [drop_to_slash]. apply negb_true_iff in Hc. rewrite Hc. auto.
Qed.

Lemma endswith_slash_app a b : b <> "" -> endswith_slash (a +:+ b) = endswith_slash b.
Proof.
  intros Hb. unfold endswith_slash. rewrite string_rev_app.
  destruct (string_rev b) as [|c r] eqn:Hr; [|reflexivity].
  exfalso. apply Hb. rewrite <- (string_rev_involutive b), Hr. reflexivity.
Qed.

Lemma slash_free_endswith s : slash_free s = true -> endswith_slash s = false.
Proof.
  intros H. unfold endswith_slash. rewrite <- slash_free_rev in H.
  destruct (string_rev s) as [|c r]; [reflexivity|].
  cbn [slash_free] in H. apply andb_prop in H as [Hc _].
  apply negb_true_iff in Hc. exact Hc.
Qed.

Lemma append_not_empty a b : b <> "" -> a +:+ b <> "".
Proof. intros Hb H. destruct a; cbn in H; [contradiction | discriminate]. Qed.

(** [dirname] drops the last component. *)
Lemma dirname_parent d name :
  d <> "" -> endswith_slash d = false -> slash_free name = true ->
  dirname (d +:+ String "/" name) = d.
Proof.
  intros Hd Hend Hname. unfold dirname.
  rewrite string_rev_app, string_rev_cons, append_assoc.
  change (String "/" "" +:+ string_rev d) with (String "/" (string_rev d)).
  rewrite drop_to_slash_app by (rewrite slash_free_rev; exact Hname).
  unfold endswith_slash in Hend.
  destruct (string_rev d) as [|c r] eqn:Hr.
  { exfalso. apply Hd. rewrite <- (string_rev_involutive d), Hr. reflexivity. }
  cbn [String.eqb all_slashes lstrip_slashes negb andb]. rewrite Hend.
  cbn [negb andb]. rewrite <- Hr. apply string_rev_involutive.
Qed.

Lemma join2_plain d name :
  d <> "" -> endswith_slash d = false -> startswith_slash name = false ->
  join2 d name = d +:+ String "/" name.
Proof.
  intros Hd Hend Hname. unfold join2. rewrite Hname, Hend.
  destruct (String.eqb_spec d ""); [contradiction | reflexivity].
Qed.

Lemma binary_path_spec d :
  d <> "" -> endswith_slash d = false ->
  path_join d ["build"; "bin"; "whisper-cli"] = d +:+ "/build/bin/whisper-cli".
Proof.
  intros Hd Hend. unfold path_join. cbn [fold_left].
  rewrite (join2_plain d "build") by auto.
  rewrite (join2_plain (d +:+ "/build") "bin");
    [| apply append_not_empty; discriminate
     | rewrite endswith_slash_app by discriminate; reflexivity
     | reflexivity ].
  rewrite (join2_plain ((d +:+ "/build") +:+ "/bin") "whisper-cli");
    [| apply append_not_empty; discriminate
     | rewrite endswith_slash_app by discriminate; reflexivity
     | reflexivity ].
  rewrite !append_assoc. reflexivity.
Qed.

(** X8: for a model file at [d/sub/name] the engine binary is looked for
    at [d/build/bin/whisper-cli], two directory levels above the model:
    construction exits when nothing is there, and an object that does get
    built carries exactly these two paths, both present on disk. *)
Theorem binary_sits_two_levels_up d sub name fs :
  d <> "" -> endswith_slash d = false ->
  sub <> "" -> slash_free sub = true -> slash_free name = true ->
  let model := d +:+ "/" +:+ sub +:+ "/" +:+ name in
  let bin := d +:+ "/build/bin/whisper-cli" in
  (fs !! bin = None -> result (__init__ model fs) = Exit 1) /\
  (forall self, result (__init__ model fs) = Ok self ->
     binary_path self = bin /\ model_path self = model /\
     is_Some (fs !! bin) /\ is_Some (fs !! model)).
Proof.
  intros Hd Hend Hsub Hsubfree Hname model bin.
  assert (Hbin : path_join (dirname (dirname model)) ["build"; "bin"; "whisper-cli"] = bin).
  { unfold model.
    replace (d +:+ "/" +:+ sub +:+ "/" +:+ name)
      with ((d +:+ String "/" sub) +:+ String "/" name)
      by (rewrite append_assoc; reflexivity).
    rewrite dirname_parent; auto.
    - rewrite dirname_parent by auto. apply binary_path_spec; auto.
    - apply append_not_empty. discriminate.
    - rewrite endswith_slash_app by discriminate.
      change (String "/" sub) with ("/" +:+ sub).
      rewrite endswith_slash_app by exact Hsub. apply slash_free_endswith, Hsubfree. }
  unfold __init__. rewrite Hbin. unfold bind, os_path_exists.
  cbn [result final_fs effects].
  destruct (fs !! bin) as [f|] eqn:Hf.
  - split; [discriminate|]. intros self.
    rewrite bool_decide_true by eauto. cbn [negb result final_fs effects].
    destruct (fs !! model) as [g|] eqn:Hg.
    + rewrite bool_decide_true by eauto. cbn [negb result final_fs effects ret].
      intros H. injection H as <-. cbn. eauto.
    + rewrite bool_decide_false by (intros [x Hx]; discriminate).
      cbn. discriminate.
  - split; [|].
    + intros _. rewrite bool_decide_false by (intros [x Hx]; discriminate). reflexivity.
    + intros self. rewrite bool_decide_false by (intros [x Hx]; discriminate).
      cbn. discriminate.
Qed.

Lemma calls_app a b : calls (a ++ b) = (calls a ++ calls b)%list.
Proof. apply List.filter_app. Qed.

Lemma calls_Tells evs : calls (map Tells evs) = [].
Proof. induction evs; [reflexivity | exact IHevs]. Qed.

(** X9: as shipped, [main] builds the translator with the empty model
    path, and no file has the empty path: whatever is on disk,
    construction exits with status 1 and [main] never starts the
    translator, whatever keys are pressed. *)
Theorem default_model_path_never_starts fs keys :
  fs !! "" = None ->
  result (__init__ MODEL_PATH fs) = Exit 1 /\
  calls (main_function fs keys) = [] /\
  last (main_function fs keys) = Some (Leaves 1).
Proof.
  intros Hnone.
  assert (Hinit : result (__init__ MODEL_PATH fs) = Exit 1).
  { unfold __init__, bind, os_path_exists. cbn [result final_fs effects].
    destruct (bool_decide _); cbn [negb result final_fs effects]; [|reflexivity].
    unfold MODEL_PATH. rewrite Hnone.
    rewrite bool_decide_false by (intros [x Hx]; discriminate). reflexivity. }
  split; [exact Hinit|]. unfold main_function. cbv zeta. rewrite Hinit.
  split.
  - rewrite !calls_app, calls_Tells. reflexivity.
  - rewrite !last_app. reflexivity.
Qed.

Lemma key_loop_calls keys :
  forall started,
    (started = false ->
     calls (key_loop started keys) = [] \/
     calls (key_loop started keys) = [Starts] \/
     calls (key_loop started keys) = [Starts; Stops]) /\
    (started = true ->
     calls (key_loop started keys) = [] \/
     calls (key_loop started keys) = [Stops]).
Proof.
  induction keys as [|key keys IH]; intros started; [cbn; auto|].
  cbn [key_loop].
  destruct (String.eqb (lower key) "q").
  - destruct started; cbn; split; intros; try discriminate; auto.
  - destruct started; cbn [negb andb].
    + rewrite andb_false_r. apply IH.
    + destruct (String.eqb key " "); cbn [andb]; [|apply IH].
      split; [|discriminate]. intros _.
      change (calls (Starts :: key_loop true keys))
        with (Starts :: calls (key_loop true keys)).
      destruct (proj2 (IH true) eq_refl) as [-> | ->]; auto.
Qed.

(** X10: whatever keys arrive, the key loop of [main] (and so [main]
    itself, on any disk) calls [start] at most once and [stop] at most
    once, [stop] only after [start] and nothing after [stop]; a [q] in
    either case ends the loop, so later keys have no effect. *)
Theorem main_starts_and_stops_once fs keys :
  (calls (key_loop false keys) = [] \/
   calls (key_loop false keys) = [Starts] \/
   calls (key_loop false keys) = [Starts; Stops]) /\
  (calls (main_function fs keys) = [] \/
   calls (main_function fs keys) = [Starts] \/
   calls (main_function fs keys) = [Starts; Stops]) /\
  (forall started before key after,
     lower key = "q" ->
     Forall (fun k => lower k <> "q") before ->
     key_loop started (before ++ key :: after) = key_loop started (before ++ [key])).
Proof.
  split; [apply (key_loop_calls keys false); reflexivity|].
  split.
  - unfold main_function. cbv zeta. rewrite !calls_app, calls_Tells.
    change (calls main_banner) with (@nil main_step). cbn [app].
    destruct (result (__init__ MODEL_PATH fs)); cbn -[key_loop]; auto.
    change (calls (key_loop false keys) = [] \/
            calls (key_loop false keys) = [Starts] \/
            calls (key_loop false keys) = [Starts; Stops]).
    apply (key_loop_calls keys false). reflexivity.
  - intros started before key after Hq Hbefore. revert started.
    induction Hbefore as [|k before Hk _ IH]; intros started.
    + cbn [app key_loop]. rewrite Hq. reflexivity.
    + cbn [app key_loop].
      destruct (String.eqb_spec (lower k) "q"); [contradiction|].
      destruct (String.eqb k " " && negb started); rewrite IH; reflexivity.
Qed.

(** ** Further facts about the threads *)

Lemma fire_CallStop_running s :
  main s = Ready -> is_running (obj s) = true ->
  fire CallStop s =
  Some (record (map Said stop_banner)
          (with_main JoiningRecording (with_obj (set_is_running false (obj s)) s))).
Proof. intros Hm Hr. unfold fire. rewrite stop_enter_paths, Hm, Hr. reflexivity. Qed.

Lemma fire_CallStart_idle s :
  main s = Ready -> is_running (obj s) = false ->
  fire CallStart s =
  Some (record (map Said start_banner)
          (with_obj (set_processing_thread (Some ProcLoop)
                       (set_recording_thread (Some RecStarting)
                          (set_is_running true (obj s)))) s)).
Proof. intros Hm Hr. unfold fire. rewrite start_paths, Hm, Hr. reflexivity. Qed.

Lemma fire_OpenStream s :
  recording_thread (obj s) = Some RecStarting ->
  fire OpenStream s =
  Some (with_obj (set_recording_thread
                    (Some (if stream_opens s then RecStreaming else RecExited))
                    (obj s)) s).
Proof. intros Ht. unfold fire. rewrite Ht. destruct (main s); reflexivity. Qed.

Lemma fire_CloseStream s :
  recording_thread (obj s) = Some RecStreaming -> is_running (obj s) = false ->
  fire CloseStream s = Some (with_obj (set_recording_thread (Some RecExited) (obj s)) s).
Proof. intros Ht Hr. unfold fire. rewrite Ht, Hr. destruct (main s); reflexivity. Qed.

Lemma fire_Callback s indata :
  recording_thread (obj s) = Some RecStreaming -> block_of (obj s) indata = true ->
  fire (Callback indata) s =
  Some (record (if is_running (obj s) then [Captured indata] else [])
          (with_obj (callback (obj s) indata) s)).
Proof. intros Ht Hb. unfold fire. rewrite Ht, Hb. destruct (main s); reflexivity. Qed.

Lemma fire_GetTimeout s :
  processing_thread (obj s) = Some ProcWaiting -> audio_queue (obj s) = [] ->
  fire GetTimeout s = Some (with_obj (set_processing_thread (Some ProcLoop) (obj s)) s).
Proof. intros Ht Hq. unfold fire. rewrite Ht, Hq. destruct (main s); reflexivity. Qed.

Lemma fire_JoinRecording s :
  main s = JoiningRecording -> joinable_rec (recording_thread (obj s)) = true ->
  fire JoinRecording s = Some (with_main JoiningProcessing s).
Proof. intros Hm Hj. unfold fire. rewrite Hm, Hj. reflexivity. Qed.

Lemma fire_JoinProcessing s :
  main s = JoiningProcessing -> joinable_proc (processing_thread (obj s)) = true ->
  fire JoinProcessing s =
  Some (record [Said (Print "Translation stopped"); StopReturned] (with_main Ready s)).
Proof. intros Hm Hj. unfold fire. rewrite Hm, Hj. reflexivity. Qed.

(** With the flag clear the recording thread ends. *)
Lemma wind_recorder s0 s :
  recording_thread (obj s) = recording_thread (obj s0) ->
  stream_opens s = stream_opens s0 ->
  is_running (obj s) = false ->
  exists rt,
    run (recorder_winds_down s0) s = Some (with_obj (set_recording_thread rt (obj s)) s) /\
    joinable_rec rt = true.
Proof.
  intros Ht Hd Hr. unfold recorder_winds_down. rewrite <- Ht, <- Hd.
  destruct (recording_thread (obj s)) as [[| |]|] eqn:Hrt.
  - destruct (stream_opens s) eqn:Hdev.
    + exists (Some RecExited). split; [|reflexivity].
      cbn [run]. rewrite (fire_OpenStream s Hrt), Hdev.
      rewrite fire_CloseStream by (cbn; auto). reflexivity.
    + exists (Some RecExited). split; [|reflexivity].
      cbn [run]. rewrite (fire_OpenStream s Hrt), Hdev. reflexivity.
  - exists (Some RecExited). split; [|reflexivity].
    cbn [run]. rewrite (fire_CloseStream s Hrt Hr). reflexivity.
  - exists (Some RecExited). split; [|reflexivity].
    cbn [run]. destruct s as [o dk m dv dq h]. destruct o. cbn in Hrt. subst. reflexivity.
  - exists None. split; [|reflexivity].
    cbn [run]. destruct s as [o dk m dv dq h]. destruct o. cbn in Hrt. subst. reflexivity.
Qed.

(** With the flag clear the processing thread ends, after the call in
    flight (if any) has settled; it takes at most one more chunk, the one
    it was already waiting for. *)
Lemma wind_processor s0 s env :
  processing_thread (obj s) = processing_thread (obj s0) ->
  audio_queue (obj s) = audio_queue (obj s0) ->
  is_running (obj s) = false ->
  exists s',
    run (processor_winds_down s0 env) s = Some s' /\
    joinable_proc (processing_thread (obj s')) = true /\
    recording_thread (obj s') = recording_thread (obj s) /\
    is_running (obj s') = false /\
    main s' = main s /\
    (audio_queue (obj s') = audio_queue (obj s) \/
     exists c, audio_queue (obj s) = c :: audio_queue (obj s')).
Proof.
  intros Ht Hq Hr. unfold processor_winds_down. rewrite <- Ht, <- Hq.
  destruct (processing_thread (obj s)) as [[| |n c|]|] eqn:Hpt.
  - eexists. split.
    + cbn [run]. rewrite (fire_TestRunning s Hpt), Hr. reflexivity.
    + cbn. repeat split; auto.
  - destruct (audio_queue (obj s)) as [|c q] eqn:Hqs.
    + eexists. split.
      * cbn [run]. rewrite (fire_GetTimeout s Hpt Hqs).
        rewrite fire_TestRunning by reflexivity. cbn [obj with_obj is_running
          set_processing_thread]. rewrite Hr. reflexivity.
      * cbn. repeat split; auto.
    + eexists. split.
      * cbn [run]. rewrite (fire_GetChunk s c q Hpt Hqs).
        erewrite fire_Finish by reflexivity.
        rewrite fire_TestRunning by reflexivity.
        cbn [obj with_obj record with_disk with_dequeued is_running set_processing_thread
             set_audio_queue]. rewrite Hr. reflexivity.
      * cbn. repeat split; auto. right. exists c. reflexivity.
  - eexists. split.
    + cbn [run]. rewrite (fire_Finish s env n c Hpt).
      rewrite fire_TestRunning by reflexivity.
      cbn [obj with_obj record with_disk is_running set_processing_thread]. rewrite Hr.
      reflexivity.
    + cbn. repeat split; auto.
  - exists s. split; [reflexivity|]. rewrite Hpt. repeat split; auto.
  - exists s. split; [reflexivity|]. rewrite Hpt. repeat split; auto.
Qed.

(** X11: a call of [stop] on a running translator can always complete:
    from any state of the two workers there is a continuation (the
    recorder closes its stream, the call in flight settles, the worker
    tests the flag) after which both joins go through and [stop] returns
    with the flag clear and both workers ended.  The queue is not drained
    on the way: at most the one chunk the worker was already waiting for
    is taken. *)
Theorem stop_can_always_return s env :
  main s = Ready ->
  is_running (obj s) = true ->
  exists s',
    run (stop_schedule s env) s = Some s' /\
    last (history s') = Some StopReturned /\
    main s' = Ready /\
    is_running (obj s') = false /\
    joinable_rec (recording_thread (obj s')) = true /\
    joinable_proc (processing_thread (obj s')) = true /\
    (audio_queue (obj s') = audio_queue (obj s) \/
     exists c, audio_queue (obj s) = c :: audio_queue (obj s')).
Proof.
  intros Hm Hr. unfold stop_schedule. cbn [run].
  rewrite (fire_CallStop_running s Hm Hr).
  set (s1 := record (map Said stop_banner)
               (with_main JoiningRecording (with_obj (set_is_running false (obj s)) s))).
  rewrite run_app.
  destruct (wind_recorder s s1 eq_refl eq_refl eq_refl) as (rt & Hrun1 & Hj1).
  rewrite Hrun1.
  set (s2 := with_obj (set_recording_thread rt (obj s1)) s1).
  rewrite run_app.
  destruct (wind_processor s s2 env eq_refl eq_refl eq_refl)
    as (s3 & Hrun2 & Hj2 & Hrt & Hflag & Hmain & Hqueue).
  rewrite Hrun2. cbn [run].
  rewrite (fire_JoinRecording s3) by (rewrite ?Hmain, ?Hrt; auto).
  rewrite fire_JoinProcessing by (cbn; auto).
  eexists. split; [reflexivity|].
  cbn [history record with_main obj main]. rewrite last_app. cbn [last].
  rewrite Hrt. repeat (split; [auto|]). exact Hqueue.
Qed.

Lemma worker_io_app h1 h2 : worker_io (h1 ++ h2) = (worker_io h1 ++ worker_io h2)%list.
Proof. apply flat_map_app. Qed.

Lemma worker_io_Said evs : worker_io (map Said evs) = [].
Proof. induction evs; [reflexivity | exact IHevs]. Qed.

Lemma worker_io_Did n evs : worker_io (map (Did n) evs) = evs.
Proof. induction evs as [|e evs IH]; [reflexivity|]. cbn. f_equal. exact IH. Qed.

(** A general induction over the states reached from [boot]. *)
Lemma reachable_fired_ind (P : Sys -> Prop) s0 :
  P s0 -> (forall s a s', P s -> fired s a s' -> P s') ->
  forall s, reachable s0 s -> P s.
Proof.
  intros H0 Hstep s Hreach.
  induction Hreach as [|s s' _ IH [a Ha]]; [exact H0|].
  eapply Hstep; [exact IH | apply fire_fired, Ha].
Qed.

(** X12: when the input device cannot be opened, [start] still launches
    both workers, but no block is ever captured or queued and the
    processing worker never begins a chunk or performs any I/O, whatever
    the threads do afterwards. *)
Theorem no_device_no_processing self d s :
  reachable (boot self d false) s ->
  recording_thread (obj s) <> Some RecStreaming /\
  captured (history s) = [] /\
  audio_queue (obj s) = [] /\
  begun (history s) = [] /\
  worker_io (history s) = [].
Proof.
  intros Hreach.
  enough (H : device_available s = false /\
              recording_thread (obj s) <> Some RecStreaming /\
              captured (history s) = [] /\
              audio_queue (obj s) = [] /\
              begun (history s) = [] /\
              worker_io (history s) = [] /\
              is_busy (processing_thread (obj s)) = false) by tauto.
  revert s Hreach. apply reachable_fired_ind.
  - cbn. repeat split; auto; discriminate.
  - intros s a s' (Hdev & Hrec & Hcap & Hq & Hbeg & Hio & Hbusy) Hf.
    destruct Hf as [Hm Hr|Hm Hr|Hm Hr|Hm Hr|Hm Hj|Hm Hj|Ht|Ht Hr|Ht Hr|indata Ht Hb
                   |Ht|c q Ht Hq'|Ht Hq'|env n c Ht];
      try congruence;
      try (rewrite Ht in Hbusy; discriminate Hbusy);
      project; rewrite ?worker_io_app, ?worker_io_Said; unfold_history;
        rewrite ?(stream_opens_no_device s Hdev), ?Hdev, ?Hcap, ?Hq, ?Hbeg, ?Hio;
        repeat split; auto; try discriminate;
        destruct (is_running (obj s)); reflexivity.
Qed.

(** X13: the queue has no bound.  While the recorder streams and the flag
    is set, every block the device delivers is appended to the queue, in
    order, however many are already waiting; the worker is not involved
    and nothing is dropped. *)
Theorem backlog_is_unbounded cs :
  forall s,
    recording_thread (obj s) = Some RecStreaming ->
    is_running (obj s) = true ->
    Forall (fun c => block_of (obj s) c = true) cs ->
    exists s',
      run (map Callback cs) s = Some s' /\
      audio_queue (obj s') = (audio_queue (obj s) ++ cs)%list /\
      captured (history s') = (captured (history s) ++ cs)%list /\
      processing_thread (obj s') = processing_thread (obj s) /\
      dequeued s' = dequeued s.
Proof.
  induction cs as [|c cs IH]; intros s Ht Hr Hall.
  - exists s. cbn. rewrite !app_nil_r. auto.
  - inversion Hall as [|? ? Hc Hcs]; subst.
    cbn [map run]. rewrite (fire_Callback s c Ht Hc), Hr.
    set (s1 := record [Captured c] (with_obj (callback (obj s) c) s)).
    assert (Hobj : obj s1 = set_audio_queue (audio_queue (obj s) ++ [c]) (obj s))
      by (cbn; unfold callback; rewrite Hr; reflexivity).
    destruct (IH s1) as (s' & Hrun & Hqueue & Hcap & Hproc & Hdeq).
    + rewrite Hobj. exact Ht.
    + rewrite Hobj. exact Hr.
    + rewrite Hobj. eapply Forall_impl; [exact Hcs|].
      intros x Hx. cbn in Hx |- *. rewrite <- Hx. apply block_of_rates; reflexivity.
    + exists s'. split; [exact Hrun|].
      rewrite Hqueue, Hcap, Hproc, Hdeq, Hobj. cbn.
      rewrite captured_app. cbn. rewrite <- !app_assoc. auto.
Qed.

(** X14: [stop] does not empty the queue and [start] does not either.
    After a [stop] that has returned, both earlier workers have ended, a
    new [start] goes through, and the first chunk the new processing
    worker takes is the oldest one left over from the session before. *)
Theorem restart_resumes_backlog self d dev s c q :
  reachable (boot self d dev) s ->
  last (history s) = Some StopReturned ->
  audio_queue (obj s) = c :: q ->
  joinable_rec (recording_thread (obj s)) = true /\
  joinable_proc (processing_thread (obj s)) = true /\
  exists s',
    run [CallStart; TestRunning; GetChunk] s = Some s' /\
    is_running (obj s') = true /\
    recording_thread (obj s') = Some RecStarting /\
    processing_thread (obj s') = Some (ProcBusy (dequeued s) c) /\
    audio_queue (obj s') = q.
Proof.
  intros Hreach Hlast Hq.
  pose proof (invariant_reachable _ _ _ _ Hreach) as Hinv.
  destruct (inv_returned _ _ Hinv Hlast) as [Hm Hr].
  destruct (inv_ready _ _ Hinv Hm Hr) as [Hj1 Hj2].
  split; [exact Hj1|]. split; [exact Hj2|].
  cbn [run]. rewrite (fire_CallStart_idle s Hm Hr).
  rewrite fire_TestRunning by reflexivity.
  erewrite fire_GetChunk; [|reflexivity|cbn; exact Hq].
  eexists. split; [reflexivity|]. cbn. auto.
Qed.

(** X15: blocks that arrive while [stop] is waiting for the workers are
    thrown away: the callback leaves the whole state as it is. *)
Theorem late_blocks_are_discarded self d dev s indata s' :
  reachable (boot self d dev) s ->
  main s <> Ready ->
  fire (Callback indata) s = Some s' ->
  s' = s.
Proof.
  intros Hreach Hm Hfire.
  pose proof (invariant_reachable _ _ _ _ Hreach) as Hinv.
  pose proof (inv_joining _ _ Hinv Hm) as Hr.
  apply fire_fired in Hfire. inversion Hfire as [| | | | | | | | |? Ht Hb| | | |]; subst.
  unfold callback. rewrite Hr, record_nil. destruct s; reflexivity.
Qed.

Lemma transcribe_ok_ran self env c fs text :
  result (_transcribe_chunk self env c fs) = Ok (Some text) ->
  length (List.filter is_run (effects (_transcribe_chunk self env c fs))) = 1%nat.
Proof.
  rewrite transcribe_paths.
  destruct (env_tmpfile env) as [e|name]; [discriminate|].
  destruct (fs !! name); [discriminate|].
  destruct (resample_and_quantize self c) as [e|pcm]; [discriminate|].
  destruct (env_wav_write env) as [e|]; [discriminate|].
  cbv zeta.
  destruct (env_run env) as [e|[returncode stdout]]; [discriminate|].
  destruct (returncode =? 0)%Z; [|discriminate].
  intros _. reflexivity.
Qed.

(** A translation is requested only after the engine has run. *)
Lemma loop_body_post_after_run self env c fs :
  (length (List.filter is_post (effects (loop_body self env (inr c) fs))) <=
   length (List.filter is_run (effects (loop_body self env (inr c) fs))))%nat.
Proof.
  rewrite loop_body_paths. cbv zeta.
  pose proof (transcribe_effects self env c fs) as (_ & Hpost1 & _ & _ & Hexit).
  cbv zeta in Hpost1, Hexit.
  destruct (result (_transcribe_chunk self env c fs)) as [[text|]|e|code] eqn:Hres.
  - pose proof (transcribe_ok_ran _ _ _ _ _ Hres) as Hran.
    pose proof (translate_effects env text
                  (final_fs (_transcribe_chunk self env c fs)))
      as (_ & Hpost2 & _ & _ & _ & _ & _).
    cbv zeta in Hpost2.
    destruct (truthy (Some text) && negb (contains "[BLANK_AUDIO]" text)).
    + destruct (result (_translate_text env text _)) as [[t|]|e|code];
        try destruct (truthy (Some t));
        cbn [effects]; rewrite ?filter_length_app, ?Hpost1, ?Hran; cbn [length];
        try destruct (is_Empty e); cbn; lia.
    + cbn [effects]. rewrite Hpost1. cbn. lia.
  - cbn [effects]. rewrite Hpost1. cbn. lia.
  - cbn [effects]. rewrite filter_length_app, Hpost1. destruct (is_Empty e); cbn; lia.
  - destruct (Hexit code eq_refl).
Qed.

(** X16: the worker calls the recognition engine at most once per chunk
    it has taken off the queue (the chunk in flight included), and it
    asks for at most as many translations as the engine has run. *)
Theorem one_engine_call_per_chunk self d dev s :
  reachable (boot self d dev) s ->
  (length (List.filter is_run (worker_io (history s))) +
   (if is_busy (processing_thread (obj s)) then 1 else 0) <= dequeued s)%nat /\
  (length (List.filter is_post (worker_io (history s))) <=
   length (List.filter is_run (worker_io (history s))))%nat.
Proof.
  revert s. apply reachable_fired_ind.
  - cbn. lia.
  - intros s a s' [Hrun Hpost] Hf.
    destruct Hf as [Hm Hr|Hm Hr|Hm Hr|Hm Hr|Hm Hj|Hm Hj|Ht|Ht Hr|Ht Hr|indata Ht Hb
                   |Ht|c q Ht Hq'|Ht Hq'|env n c Ht];
      try (rewrite Ht in Hrun);
      project; rewrite ?worker_io_app, ?worker_io_Said, ?worker_io_Did;
      cbn [worker_io flat_map app is_busy] in *;
      rewrite ?app_nil_r, ?filter_length_app.
    14: { pose proof (loop_body_contained (obj s) env c (disk s))
            as (_ & _ & Hone & _).
          pose proof (loop_body_post_after_run (obj s) env c (disk s)).
          cbv zeta in Hone. lia. }
    all: try (destruct (is_running (obj s)); cbn [worker_io flat_map app];
              rewrite ?app_nil_r).
    all: try (unfold callback; destruct (is_running (obj s)); project).
    all: try (destruct (processing_thread (obj s)) as [[]|]; cbn [is_busy] in *).
    all: cbn [List.filter length] in *; split; lia.
Qed.

(** X17: whenever the processing worker is not in the middle of a chunk,
    the file system is the one the translator booted with: however the
    calls on the chunks handled so far ended, their temporary files are
    gone. *)
Theorem disk_is_restored self d dev s :
  reachable (boot self d dev) s ->
  is_busy (processing_thread (obj s)) = false ->
  disk s = d.
Proof.
  intros Hreach _. revert s Hreach. apply reachable_fired_ind; [reflexivity|].
  intros s a s' Hd Hf. destruct Hf; project; exact Hd.
Qed.

(** ** Further facts about the numeric code *)

Lemma round_aux_opp prec emax sx m e l :
  binary_round_aux prec emax (negb sx) m e l =
  SFopp (binary_round_aux prec emax sx m e l).
Proof.
  unfold binary_round_aux.
  destruct (shr_fexp prec emax m e l) as [mrs1 e1].
  destruct (shr_fexp prec emax _ e1 loc_Exact) as [mrs2 e2].
  destruct (shr_m mrs2); [reflexivity| |reflexivity].
  destruct (e2 <=? emax - prec)%Z; reflexivity.
Qed.

Lemma f32_mul_opp x y : f32_mul (SFopp x) y = SFopp (f32_mul x y).
Proof.
  unfold f32_mul.
  destruct x as [sx|sx| |sx mx ex], y as [sy|sy| |sy my ey]; cbn [SFopp SFmul];
    try reflexivity; try (destruct sx, sy; reflexivity).
  rewrite <- round_aux_opp. destruct sx, sy; reflexivity.
Qed.

Lemma trunc_opp y z : trunc y = Some z -> trunc (SFopp y) = Some (- z).
Proof.
  destruct y as [s|s| |s m e]; cbn; try discriminate.
  - intros H. injection H as <-. reflexivity.
  - intros H. injection H as <-. f_equal. destruct s; cbn; lia.
Qed.

(** The scaled sample, cut toward zero, stays within 32767 of zero. *)
Lemma scaled_sample_trunc x :
  f32_valid x = true -> in_unit_range x = true ->
  exists z, trunc (f32_mul x (f32_of_int 32767)) = Some z /\ -32767 <= z <= 32767.
Proof.
  intros Hv Hu.
  change (f32_of_int 32767) with (S754_finite false 16776704 (-9)).
  destruct x as [s|s| |s m e].
  - exists 0. split; [reflexivity | lia].
  - destruct s; discriminate.
  - discriminate.
  - destruct (unit_range_finite s m e Hv Hu) as [He Hm].
    unfold f32_mul, SFmul.
    assert (Hpow : 0 < 2 ^ (- e)) by (apply Z.pow_pos_nonneg; lia).
    assert (HM : Zpos (m * 16776704) <= 32767 * 2 ^ (- (e + -9))).
    { replace (- (e + -9)) with (- e + 9) by lia.
      rewrite Z.pow_add_r by lia. rewrite Pos2Z.inj_mul.
      change (2 ^ 9) with 512. nia. }
    pose proof (round_aux_le 24 128 ltac:(lia) ltac:(lia) (xorb s false)
                  (m * 16776704) (e + -9) 32767 ltac:(cbn; lia) ltac:(lia) HM) as Hr.
    destruct (binary_round_aux 24 128 (xorb s false) (Zpos (m * 16776704)) (e + -9)
                loc_Exact) as [s'|s'| |s' m' e'].
    + exists 0. split; [reflexivity | lia].
    + contradiction.
    + contradiction.
    + destruct Hr as (_ & He' & Hm').
      apply (trunc_le_bound s' m' e' 32767); auto. lia.
Qed.

Lemma astype_int16_in_range y z :
  trunc y = Some z -> -32768 <= z <= 32767 -> astype_int16 y = z.
Proof.
  intros Hz Hrange. unfold astype_int16. rewrite Hz. unfold in_int16.
  replace (-32768 <=? z)%Z with true by (symmetry; apply Z.leb_le; lia).
  replace (z <=? 32767)%Z with true by (symmetry; apply Z.leb_le; lia).
  reflexivity.
Qed.

(** X18: the quantizer is odd on the unit range: a sample and its negation
    are stored as opposite 16-bit values, so the extreme negative value
    -32768 is never produced and a negative half-step is cut toward zero
    exactly as a positive one. *)
Theorem quantize_is_odd x :
  f32_valid x = true ->
  in_unit_range x = true ->
  astype_int16 (f32_mul (SFopp x) (f32_of_int 32767)) =
  - astype_int16 (f32_mul x (f32_of_int 32767)) /\
  -32767 <= astype_int16 (f32_mul (SFopp x) (f32_of_int 32767)) <= 32767.
Proof.
  intros Hv Hu.
  destruct (scaled_sample_trunc x Hv Hu) as (z & Hz & Hrange).
  rewrite f32_mul_opp.
  rewrite (astype_int16_in_range _ _ (trunc_opp _ _ Hz)) by lia.
  rewrite (astype_int16_in_range _ _ Hz) by lia.
  lia.
Qed.




(** X19: whenever the resampled length [len * target / rate] is a whole
    number [q] with [0 < q < 2^53], the chunk is resampled to exactly [q]
    samples, for any chunk length and any two rates; neither the float
    division nor [int] loses anything. *)
Theorem whole_ratio_sample_count self c q :
  0 < sample_rate self ->
  Z.of_nat (length (flatten c)) * target_sample_rate self = q * sample_rate self ->
  0 < q < 2 ^ 53 ->
  num_samples self (flatten c) = inr q /\
  exists pcm,
    resample_and_quantize self c = inr pcm /\
    Z.of_nat (length pcm) = q.
Proof.
  intros Hrate Hwhole Hq. split.
  - apply num_samples_whole; [assumption | assumption | lia].
  - apply resample_and_quantize_whole; assumption.
Qed.




End Program.

(** ** The facts on the sample data *)

Lemma resample_hold_length x n :
  x <> [] -> 0 < n ->
  exists y, resample_hold x n = inr y /\ length y = Z.to_nat n.
Proof.
  intros _ _. eexists. split; [reflexivity|].
  rewrite length_map, length_seq. reflexivity.
Qed.

Example binary_path_of_model :
  path_join (dirname (dirname "/opt/whisper.cpp/models/ggml-base.en.bin"))
    ["build"; "bin"; "whisper-cli"] = "/opt/whisper.cpp/build/bin/whisper-cli".
Proof. reflexivity. Qed.

Example strip_stdout : strip (" hello world " +:+ nl) = "hello world".
Proof. reflexivity. Qed.

(** White space beyond ASCII is stripped too, at both ends, and kept
    inside. *)
Example strip_unicode :
  strip (ideographic_space +:+ "buenos" +:+ nbsp +:+ "días" +:+ nbsp +:+ nl) =
  "buenos" +:+ nbsp +:+ "días".
Proof. reflexivity. Qed.

(** [int(88200 * 16000 / 44100)] is [32000]. *)
Example default_num_samples :
  match truediv (88200 * 16000) 44100 with
  | inr q => int_of_float q
  | inl e => inl e
  end = inr 32000.
Proof. vm_compute. reflexivity. Qed.

(** [int(7 / 2)] is [3] and [int(-7 / 2)] is [-3]. *)
Example truediv_truncates :
  (match truediv 7 2 with inr q => int_of_float q | inl e => inl e end) = inr 3 /\
  (match truediv (-7) 2 with inr q => int_of_float q | inl e => inl e end) = inr (-3).
Proof. split; vm_compute; reflexivity. Qed.

(** A chunk recognised as "hello" is sent for translation to Spanish and
    the answer is printed. *)
Example hello_is_translated :
  effects (loop_body resample_hold fill_short cast_zero text_of slow_self env_hello
             (inr four_frames) ∅) =
  [WavWrite "/tmp/tmpk3v9.wav" 2 [8191; 8191];
   Run (whisper_cmd slow_self "/tmp/tmpk3v9.wav");
   Post generate_url LLM_MODEL (prompt_for "hello");
   Print " hola"].
Proof. vm_compute. reflexivity. Qed.

Example timeout_is_reported :
  effects (loop_body resample_hold fill_short cast_zero text_of slow_self env_timeout
             (inr four_frames) ∅) =
  [WavWrite "/tmp/tmpk3v9.wav" 2 [8191; 8191];
   Run (whisper_cmd slow_self "/tmp/tmpk3v9.wav");
   Print timeout_line].
Proof. vm_compute. reflexivity. Qed.

Lemma temp_file_removed_on_every_path_witness :
  env_tmpfile env_timeout = inr "/tmp/tmpk3v9.wav" /\
  (∅ : gmap string file) !! "/tmp/tmpk3v9.wav" = None /\
  let o := _transcribe_chunk resample_hold cast_zero slow_self env_timeout four_frames ∅ in
  (exists r, result o = Ok r) /\
  final_fs o !! "/tmp/tmpk3v9.wav" = None /\
  final_fs o = ∅.
Proof.
  split; [reflexivity|]. split; [reflexivity|].
  apply (temp_file_removed_on_every_path resample_hold cast_zero slow_self env_timeout
           four_frames ∅ "/tmp/tmpk3v9.wav"); reflexivity.
Defined.

Lemma blank_audio_short_circuits_witness :
  result (_transcribe_chunk resample_hold cast_zero slow_self env_blank four_frames ∅) =
    Ok (Some "[BLANK_AUDIO]") /\
  let o := loop_body resample_hold fill_short cast_zero text_of slow_self env_blank
             (inr four_frames) ∅ in
  result o = Ok tt /\
  (forall url model prompt, ~ In (Post url model prompt) (effects o)) /\
  (forall text, ~ In (Print text) (effects o)).
Proof.
  split; [vm_compute; reflexivity|].
  apply (blank_audio_short_circuits resample_hold fill_short cast_zero text_of slow_self env_blank
           four_frames ∅).
  vm_compute. reflexivity.
Defined.

Lemma chunk_failure_is_contained_witness :
  processing_thread (obj busy_sys) = Some (ProcBusy 0 four_frames) /\
  recognition_fails env_bad_exit = true /\
  is_running (obj busy_sys) = true /\
  audio_queue (obj busy_sys) = [four_frames] /\
  let o := loop_body resample_hold fill_short cast_zero text_of (obj busy_sys) env_bad_exit
             (inr four_frames) (disk busy_sys) in
  result o = Ok tt /\
  List.filter is_post (effects o) = [] /\
  (forall text, In (Print text) (effects o) -> diagnostic text_of text) /\
  (exists s'', run resample_hold fill_short cast_zero text_of
                 [Finish env_bad_exit; TestRunning; GetChunk] busy_sys = Some s'' /\
               processing_thread (obj s'') = Some (ProcBusy 1 four_frames)) /\
  translation_fails env_http_500 = true /\
  (forall text,
     In (Print text)
        (effects (loop_body resample_hold fill_short cast_zero text_of (obj busy_sys) env_http_500
                    (inr four_frames) (disk busy_sys))) ->
     diagnostic text_of text).
Proof.
  pose proof (chunk_failure_is_contained resample_hold fill_short cast_zero text_of busy_sys
                env_bad_exit 0%nat four_frames eq_refl)
    as (Hres & _ & _ & Hrec & _ & _ & Hnext).
  pose proof (chunk_failure_is_contained resample_hold fill_short cast_zero text_of busy_sys
                env_http_500 0%nat four_frames eq_refl)
    as (_ & _ & _ & _ & Htr & _).
  do 4 (split; [reflexivity|]). cbv zeta.
  split; [exact Hres|].
  destruct (Hrec eq_refl) as [Hpost Hdiag].
  split; [exact Hpost|]. split; [exact Hdiag|].
  split; [exact (Hnext four_frames [] eq_refl eq_refl)|].
  split; [reflexivity|]. exact (Htr eq_refl).
Defined.

Lemma fifo_processing_witness :
  match run resample_hold fill_short cast_zero text_of
          [CallStart; OpenStream; Callback four_frames; Callback four_frames;
           TestRunning; GetChunk; Finish env_hello; TestRunning; GetChunk]
          (boot slow_self ∅ true) with
  | Some s =>
      reachable resample_hold fill_short cast_zero text_of (boot slow_self ∅ true) s /\
      (map snd (begun (history s)) ++ audio_queue (obj s))%list = captured (history s) /\
      map fst (begun (history s)) = seq 0 (dequeued s) /\
      (forall pre post n e,
         history s = (pre ++ Did n e :: post)%list ->
         (exists c, In (Began n c) pre) /\
         (forall m c, In (Began m c) pre -> (m <= n)%nat))
  | None => False
  end.
Proof.
  destruct (run resample_hold fill_short cast_zero text_of
              [CallStart; OpenStream; Callback four_frames; Callback four_frames;
               TestRunning; GetChunk; Finish env_hello; TestRunning; GetChunk]
              (boot slow_self ∅ true)) as [s|] eqn:Hrun.
  - assert (Hreach : reachable resample_hold fill_short cast_zero text_of (boot slow_self ∅ true) s).
    { eapply run_reachable; [exact Hrun | apply reach_refl]. }
    split; [exact Hreach|].
    destruct (fifo_processing resample_hold fill_short cast_zero text_of slow_self ∅ true s Hreach)
      as (H1 & H2 & H3 & _).
    auto.
  - vm_compute in Hrun. discriminate Hrun.
Defined.

Lemma stop_joins_workers_witness :
  match run resample_hold fill_short cast_zero text_of
          [CallStart; OpenStream; TestRunning; CallStop; CloseStream; GetTimeout;
           TestRunning; JoinRecording; JoinProcessing]
          (boot slow_self ∅ true) with
  | Some s =>
      reachable resample_hold fill_short cast_zero text_of (boot slow_self ∅ true) s /\
      last (history s) = Some StopReturned /\
      is_running (obj s) = false /\
      joinable_rec (recording_thread (obj s)) = true /\
      joinable_proc (processing_thread (obj s)) = true /\
      (forall n c, processing_thread (obj s) <> Some (ProcBusy n c)) /\
      is_running slow_self = false /\
      stop_enter slow_self ∅ = Outcome (Ok None) ∅ []
  | None => False
  end.
Proof.
  destruct (run resample_hold fill_short cast_zero text_of
              [CallStart; OpenStream; TestRunning; CallStop; CloseStream; GetTimeout;
               TestRunning; JoinRecording; JoinProcessing]
              (boot slow_self ∅ true)) as [s|] eqn:Hrun.
  - assert (Hreach : reachable resample_hold fill_short cast_zero text_of (boot slow_self ∅ true) s).
    { eapply run_reachable; [exact Hrun | apply reach_refl]. }
    assert (Hlast : last (history s) = Some StopReturned).
    { vm_compute in Hrun. injection Hrun as <-. reflexivity. }
    split; [exact Hreach|]. split; [exact Hlast|].
    destruct (stop_joins_workers resample_hold fill_short cast_zero text_of slow_self ∅ true)
      as (Hnoop & _ & Hjoin).
    destruct (Hjoin s Hreach Hlast) as (H1 & H2 & H3 & H4).
    repeat (split; [assumption|]).
    split; [reflexivity|]. exact (Hnoop slow_self ∅ eq_refl).
  - vm_compute in Hrun. discriminate Hrun.
Defined.

Lemma startup_checks_witness :
  ((∅ : gmap string file) !! "build/bin/whisper-cli" = None /\
   result (__init__ MODEL_PATH ∅) = Exit 1 /\
   effects (__init__ MODEL_PATH ∅) = [Print "Binary not found: build/bin/whisper-cli"]) /\
  (is_Some (binary_only !! "/opt/whisper.cpp/build/bin/whisper-cli") /\
   binary_only !! model_path slow_self = None /\
   result (__init__ (model_path slow_self) binary_only) = Exit 1 /\
   effects (__init__ (model_path slow_self) binary_only) =
     [Print "Model not found: /opt/whisper.cpp/models/ggml-base.en.bin"]) /\
  (main (boot slow_self ∅ false) = Ready /\
   is_running (obj (boot slow_self ∅ false)) = false /\
   exists s', fire resample_hold fill_short cast_zero text_of CallStart (boot slow_self ∅ false)
              = Some s' /\
              is_running (obj s') = true /\
              recording_thread (obj s') = Some RecStarting).
Proof.
  split; [|split].
  - split; [reflexivity|].
    apply (proj1 (startup_checks resample_hold fill_short cast_zero text_of MODEL_PATH ∅)).
    reflexivity.
  - assert (Hbin : is_Some (binary_only !! "/opt/whisper.cpp/build/bin/whisper-cli"))
      by (eexists; reflexivity).
    split; [exact Hbin|]. split; [reflexivity|].
    exact (proj1 (proj2 (startup_checks resample_hold fill_short cast_zero text_of
                           (model_path slow_self) binary_only)) Hbin eq_refl).
  - split; [reflexivity|]. split; [reflexivity|].
    exact (proj1 (proj2 (proj2 (proj2
             (startup_checks resample_hold fill_short cast_zero text_of MODEL_PATH ∅))))
             (boot slow_self ∅ false) eq_refl eq_refl).
Defined.


Lemma written_samples_ignore_environment_witness :
  sample_rate slow_self = sample_rate (set_is_running true slow_self) /\
  target_sample_rate slow_self = target_sample_rate (set_is_running true slow_self) /\
  In (WavWrite "/tmp/tmpk3v9.wav" 2 [8191; 8191])
     (effects (_transcribe_chunk resample_hold cast_zero slow_self env_hello four_frames ∅)) /\
  In (WavWrite "/tmp/tmpk3v9.wav" 2 [8191; 8191])
     (effects (_transcribe_chunk resample_hold cast_zero (set_is_running true slow_self)
                 env_timeout four_frames {["/var/log/syslog" := Opaque]})) /\
  resample_and_quantize resample_hold cast_zero slow_self four_frames = inr [8191; 8191].
Proof.
  assert (H1 : In (WavWrite "/tmp/tmpk3v9.wav" 2 [8191; 8191])
                 (effects (_transcribe_chunk resample_hold cast_zero slow_self env_hello
                             four_frames ∅)))
    by (vm_compute; left; reflexivity).
  assert (H2 : In (WavWrite "/tmp/tmpk3v9.wav" 2 [8191; 8191])
                 (effects (_transcribe_chunk resample_hold cast_zero
                             (set_is_running true slow_self) env_timeout four_frames
                             {["/var/log/syslog" := Opaque]})))
    by (vm_compute; left; reflexivity).
  split; [reflexivity|]. split; [reflexivity|]. split; [exact H1|]. split; [exact H2|].
  exact (proj2 (proj2 (written_samples_ignore_environment resample_hold cast_zero
                         slow_self (set_is_running true slow_self) env_hello env_timeout
                         ∅ {["/var/log/syslog" := Opaque]} four_frames
                         _ _ _ _ _ _ eq_refl eq_refl H1 H2))).
Defined.



Lemma translate_text_result_witness :
  result (_translate_text text_of env_hello "hello" ∅) = Ok (Some "hola") /\
  final_fs (_translate_text text_of env_hello "hello" ∅) = ∅ /\
  List.filter is_post (effects (_translate_text text_of env_hello "hello" ∅)) =
    [Post generate_url LLM_MODEL (prompt_for "hello")].
Proof.
  destruct (translate_text_result text_of env_hello "hello" ∅) as (Hfs & _ & Hpost & Hok).
  split; [|split; [exact Hfs | exact Hpost]].
  apply (proj2 (Hok "hola")).
  exists {| status_code := 200; json_response := inr "hola" |}, "hola".
  repeat split.
Defined.

Lemma transcribe_raises_without_tempfile_witness :
  env_tmpfile env_disk_full = inl (OSError "No space left on device") /\
  _transcribe_chunk resample_hold cast_zero slow_self env_disk_full four_frames ∅ =
    Outcome (Raise (UnboundLocalError "tmp_filename")) ∅ [] /\
  loop_body resample_hold fill_short cast_zero text_of slow_self env_disk_full
    (inr four_frames) ∅ =
    Outcome (Ok tt) ∅
      [Print (nl +:+ "Error processing chunk: " +:+
              text_of (UnboundLocalError "tmp_filename"))].
Proof.
  split; [reflexivity|].
  exact (transcribe_raises_without_tempfile resample_hold fill_short cast_zero text_of
           slow_self env_disk_full four_frames ∅ (OSError "No space left on device")
           eq_refl).
Defined.

Lemma main_starts_and_stops_once_witness :
  calls (key_loop false [" "; "x"; " "; "Q"; " "]) = [Starts; Stops] /\
  key_loop false ([" "; "x"; " "] ++ "Q" :: [" "]) =
  key_loop false ([" "; "x"; " "] ++ ["Q"]).
Proof.
  split; [reflexivity|].
  apply (proj2 (proj2 (main_starts_and_stops_once ∅ []))); [reflexivity|].
  repeat constructor; discriminate.
Defined.

Lemma silence_is_dropped_witness :
  env_run env_silence = inr (0, " " +:+ ideographic_space +:+ nl) /\
  all_space (" " +:+ ideographic_space +:+ nl) = true /\
  (forall text,
     result (_transcribe_chunk resample_hold cast_zero slow_self env_silence four_frames ∅)
     <> Ok (Some text)) /\
  List.filter is_post
    (effects (loop_body resample_hold fill_short cast_zero text_of slow_self env_silence
                (inr four_frames) ∅)) = [].
Proof.
  split; [reflexivity|]. split; [reflexivity|].
  apply (silence_is_dropped resample_hold fill_short cast_zero text_of slow_self env_silence
           four_frames ∅ 0 (" " +:+ ideographic_space +:+ nl)); reflexivity.
Defined.

Lemma marker_anywhere_drops_witness :
  result (_transcribe_chunk resample_hold cast_zero slow_self env_pause four_frames ∅) =
    Ok (Some ("so " +:+ "[BLANK_AUDIO]" +:+ " then")) /\
  let o := loop_body resample_hold fill_short cast_zero text_of slow_self env_pause
             (inr four_frames) ∅ in
  result o = Ok tt /\
  List.filter is_post (effects o) = [] /\
  List.filter is_print (effects o) = [].
Proof.
  assert (H : result (_transcribe_chunk resample_hold cast_zero slow_self env_pause
                        four_frames ∅) =
              Ok (Some ("so " +:+ "[BLANK_AUDIO]" +:+ " then")))
    by (vm_compute; reflexivity).
  split; [exact H|].
  exact (marker_anywhere_drops resample_hold fill_short cast_zero text_of slow_self env_pause
           four_frames ∅ "so " " then" H).
Defined.

Lemma translation_is_printed_witness :
  resample_and_quantize resample_hold cast_zero slow_self four_frames = inr [8191; 8191] /\
  strip (" hello" +:+ nl) = "hello" /\
  let o := loop_body resample_hold fill_short cast_zero text_of slow_self env_hello
             (inr four_frames) ∅ in
  result o = Ok tt /\
  final_fs o = ∅ /\
  effects o =
    [WavWrite "/tmp/tmpk3v9.wav" 2 [8191; 8191];
     Run (whisper_cmd slow_self "/tmp/tmpk3v9.wav");
     Post generate_url LLM_MODEL (prompt_for "hello");
     Print (fill_short " hola")].
Proof.
  assert (Hpcm : resample_and_quantize resample_hold cast_zero slow_self four_frames =
                 inr [8191; 8191]) by (vm_compute; reflexivity).
  split; [exact Hpcm|]. split; [reflexivity|].
  apply (translation_is_printed resample_hold fill_short cast_zero text_of slow_self env_hello
           four_frames ∅ "/tmp/tmpk3v9.wav" [8191; 8191] (" hello" +:+ nl)
           {| status_code := 200; json_response := inr "hola" |} "hola");
    try reflexivity; try exact Hpcm.
  vm_compute. discriminate.
Defined.


Lemma engine_reads_what_was_written_witness :
  In (Run (whisper_cmd slow_self "/tmp/tmpk3v9.wav"))
     (effects (_transcribe_chunk resample_hold cast_zero slow_self env_timeout
                 four_frames ∅)) /\
  exists name pcm rest,
    env_tmpfile env_timeout = inr name /\
    resample_and_quantize resample_hold cast_zero slow_self four_frames = inr pcm /\
    whisper_cmd slow_self "/tmp/tmpk3v9.wav" =
      [binary_path slow_self; "-f"; name; "-m"; model_path slow_self;
       "-l"; "en"; "-t"; "4"; "-nt"] /\
    effects (_transcribe_chunk resample_hold cast_zero slow_self env_timeout
               four_frames ∅) =
      WavWrite name (target_sample_rate slow_self) pcm ::
      Run (whisper_cmd slow_self "/tmp/tmpk3v9.wav") :: rest /\
    (rest = [] \/ rest = [Print timeout_line]).
Proof.
  assert (H : In (Run (whisper_cmd slow_self "/tmp/tmpk3v9.wav"))
                (effects (_transcribe_chunk resample_hold cast_zero slow_self env_timeout
                            four_frames ∅)))
    by (vm_compute; right; left; reflexivity).
  split; [exact H|].
  exact (engine_reads_what_was_written resample_hold fill_short cast_zero text_of slow_self
           env_timeout four_frames ∅ _ H).
Defined.

Lemma binary_sits_two_levels_up_witness :
  let model := "/opt/whisper.cpp" +:+ "/" +:+ "models" +:+ "/" +:+ "ggml-base.en.bin" in
  let bin := "/opt/whisper.cpp" +:+ "/build/bin/whisper-cli" in
  (∅ : gmap string file) !! bin = None /\
  result (__init__ model ∅) = Exit 1 /\
  (forall self, result (__init__ model binary_only) = Ok self ->
     binary_path self = bin /\ model_path self = model /\
     is_Some (binary_only !! bin) /\ is_Some (binary_only !! model)).
Proof.
  cbv zeta.
  pose proof (binary_sits_two_levels_up "/opt/whisper.cpp" "models" "ggml-base.en.bin" ∅
                ltac:(discriminate) eq_refl ltac:(discriminate) eq_refl eq_refl)
    as [Hmissing _].
  pose proof (binary_sits_two_levels_up "/opt/whisper.cpp" "models" "ggml-base.en.bin"
                binary_only
                ltac:(discriminate) eq_refl ltac:(discriminate) eq_refl eq_refl)
    as [_ Hbuilt].
  split; [reflexivity|]. split; [exact (Hmissing eq_refl)|]. exact Hbuilt.
Defined.

Lemma default_model_path_never_starts_witness :
  binary_only !! "" = None /\
  result (__init__ MODEL_PATH binary_only) = Exit 1 /\
  calls (main_function binary_only [" "; "q"]) = [] /\
  last (main_function binary_only [" "; "q"]) = Some (Leaves 1).
Proof.
  split; [reflexivity|].
  apply (default_model_path_never_starts binary_only [" "; "q"]). reflexivity.
Defined.

Lemma stop_can_always_return_witness :
  main busy_sys = Ready /\
  is_running (obj busy_sys) = true /\
  exists s',
    run resample_hold fill_short cast_zero text_of (stop_schedule busy_sys env_hello) busy_sys
      = Some s' /\
    last (history s') = Some StopReturned /\
    main s' = Ready /\
    is_running (obj s') = false /\
    joinable_rec (recording_thread (obj s')) = true /\
    joinable_proc (processing_thread (obj s')) = true /\
    (audio_queue (obj s') = audio_queue (obj busy_sys) \/
     exists c, audio_queue (obj busy_sys) = c :: audio_queue (obj s')).
Proof.
  split; [reflexivity|]. split; [reflexivity|].
  exact (stop_can_always_return resample_hold fill_short cast_zero text_of busy_sys env_hello
           eq_refl eq_refl).
Defined.

Lemma no_device_no_processing_witness :
  match run resample_hold fill_short cast_zero text_of
          [CallStart; OpenStream; TestRunning; GetTimeout; TestRunning]
          (boot slow_self ∅ false) with
  | Some s =>
      reachable resample_hold fill_short cast_zero text_of (boot slow_self ∅ false) s /\
      is_running (obj s) = true /\
      recording_thread (obj s) <> Some RecStreaming /\
      captured (history s) = [] /\
      audio_queue (obj s) = [] /\
      begun (history s) = [] /\
      worker_io (history s) = []
  | None => False
  end.
Proof.
  destruct (run resample_hold fill_short cast_zero text_of
              [CallStart; OpenStream; TestRunning; GetTimeout; TestRunning]
              (boot slow_self ∅ false)) as [s|] eqn:Hrun.
  - assert (Hreach : reachable resample_hold fill_short cast_zero text_of (boot slow_self ∅ false) s).
    { eapply run_reachable; [exact Hrun | apply reach_refl]. }
    split; [exact Hreach|].
    split; [vm_compute in Hrun; injection Hrun as <-; reflexivity|].
    exact (no_device_no_processing resample_hold fill_short cast_zero text_of slow_self ∅ s Hreach).
  - vm_compute in Hrun. discriminate Hrun.
Defined.

Lemma backlog_is_unbounded_witness :
  recording_thread (obj busy_sys) = Some RecStreaming /\
  is_running (obj busy_sys) = true /\
  Forall (fun c => block_of (obj busy_sys) c = true) [four_frames; four_frames] /\
  exists s',
    run resample_hold fill_short cast_zero text_of
      (map Callback [four_frames; four_frames]) busy_sys = Some s' /\
    audio_queue (obj s') = (audio_queue (obj busy_sys) ++ [four_frames; four_frames])%list /\
    captured (history s') = (captured (history busy_sys) ++ [four_frames; four_frames])%list /\
    processing_thread (obj s') = processing_thread (obj busy_sys) /\
    dequeued s' = dequeued busy_sys.
Proof.
  assert (Hall : Forall (fun c => block_of (obj busy_sys) c = true)
                   [four_frames; four_frames])
    by (repeat constructor).
  split; [reflexivity|]. split; [reflexivity|]. split; [exact Hall|].
  exact (backlog_is_unbounded resample_hold fill_short cast_zero text_of
           [four_frames; four_frames] busy_sys eq_refl eq_refl Hall).
Defined.

Lemma restart_resumes_backlog_witness :
  match run resample_hold fill_short cast_zero text_of
          [CallStart; OpenStream; Callback four_frames; Callback four_frames;
           CallStop; CloseStream; TestRunning; JoinRecording; JoinProcessing]
          (boot slow_self ∅ true) with
  | Some s =>
      reachable resample_hold fill_short cast_zero text_of (boot slow_self ∅ true) s /\
      last (history s) = Some StopReturned /\
      audio_queue (obj s) = [four_frames; four_frames] /\
      joinable_rec (recording_thread (obj s)) = true /\
      joinable_proc (processing_thread (obj s)) = true /\
      exists s',
        run resample_hold fill_short cast_zero text_of [CallStart; TestRunning; GetChunk] s
          = Some s' /\
        is_running (obj s') = true /\
        recording_thread (obj s') = Some RecStarting /\
        processing_thread (obj s') = Some (ProcBusy (dequeued s) four_frames) /\
        audio_queue (obj s') = [four_frames]
  | None => False
  end.
Proof.
  destruct (run resample_hold fill_short cast_zero text_of
              [CallStart; OpenStream; Callback four_frames; Callback four_frames;
               CallStop; CloseStream; TestRunning; JoinRecording; JoinProcessing]
              (boot slow_self ∅ true)) as [s|] eqn:Hrun.
  - assert (Hreach : reachable resample_hold fill_short cast_zero text_of (boot slow_self ∅ true) s).
    { eapply run_reachable; [exact Hrun | apply reach_refl]. }
    assert (Hlast : last (history s) = Some StopReturned).
    { vm_compute in Hrun. injection Hrun as <-. reflexivity. }
    assert (Hqueue : audio_queue (obj s) = [four_frames; four_frames]).
    { vm_compute in Hrun. injection Hrun as <-. reflexivity. }
    split; [exact Hreach|]. split; [exact Hlast|]. split; [exact Hqueue|].
    exact (restart_resumes_backlog resample_hold fill_short cast_zero text_of slow_self ∅ true s
             four_frames [four_frames] Hreach Hlast Hqueue).
  - vm_compute in Hrun. discriminate Hrun.
Defined.

Lemma late_blocks_are_discarded_witness :
  match run resample_hold fill_short cast_zero text_of [CallStart; OpenStream; CallStop]
          (boot slow_self ∅ true) with
  | Some s =>
      match fire resample_hold fill_short cast_zero text_of (Callback four_frames) s with
      | Some s' =>
          reachable resample_hold fill_short cast_zero text_of (boot slow_self ∅ true) s /\
          main s <> Ready /\
          s' = s
      | None => False
      end
  | None => False
  end.
Proof.
  destruct (run resample_hold fill_short cast_zero text_of [CallStart; OpenStream; CallStop]
              (boot slow_self ∅ true)) as [s|] eqn:Hrun.
  - assert (Hreach : reachable resample_hold fill_short cast_zero text_of (boot slow_self ∅ true) s).
    { eapply run_reachable; [exact Hrun | apply reach_refl]. }
    assert (Hmain : main s <> Ready).
    { vm_compute in Hrun. injection Hrun as <-. discriminate. }
    destruct (fire resample_hold fill_short cast_zero text_of (Callback four_frames) s)
      as [s'|] eqn:Hfire.
    + split; [exact Hreach|]. split; [exact Hmain|].
      exact (late_blocks_are_discarded resample_hold fill_short cast_zero text_of slow_self ∅ true
               s four_frames s' Hreach Hmain Hfire).
    + vm_compute in Hrun. injection Hrun as <-. vm_compute in Hfire. discriminate Hfire.
  - vm_compute in Hrun. discriminate Hrun.
Defined.

Lemma one_engine_call_per_chunk_witness :
  match run resample_hold fill_short cast_zero text_of
          [CallStart; OpenStream; Callback four_frames; Callback four_frames;
           TestRunning; GetChunk; Finish env_hello; TestRunning; GetChunk]
          (boot slow_self ∅ true) with
  | Some s =>
      reachable resample_hold fill_short cast_zero text_of (boot slow_self ∅ true) s /\
      (length (List.filter is_run (worker_io (history s))) +
       (if is_busy (processing_thread (obj s)) then 1 else 0) <= dequeued s)%nat /\
      (length (List.filter is_post (worker_io (history s))) <=
       length (List.filter is_run (worker_io (history s))))%nat
  | None => False
  end.
Proof.
  destruct (run resample_hold fill_short cast_zero text_of
              [CallStart; OpenStream; Callback four_frames; Callback four_frames;
               TestRunning; GetChunk; Finish env_hello; TestRunning; GetChunk]
              (boot slow_self ∅ true)) as [s|] eqn:Hrun.
  - assert (Hreach : reachable resample_hold fill_short cast_zero text_of (boot slow_self ∅ true) s).
    { eapply run_reachable; [exact Hrun | apply reach_refl]. }
    split; [exact Hreach|].
    exact (one_engine_call_per_chunk resample_hold fill_short cast_zero text_of slow_self ∅ true s
             Hreach).
  - vm_compute in Hrun. discriminate Hrun.
Defined.

Lemma disk_is_restored_witness :
  match run resample_hold fill_short cast_zero text_of
          [CallStart; OpenStream; Callback four_frames; TestRunning; GetChunk;
           Finish env_timeout; TestRunning]
          (boot slow_self binary_only true) with
  | Some s =>
      reachable resample_hold fill_short cast_zero text_of
        (boot slow_self binary_only true) s /\
      is_busy (processing_thread (obj s)) = false /\
      worker_io (history s) =
        [WavWrite "/tmp/tmpk3v9.wav" 2 [8191; 8191];
         Run (whisper_cmd slow_self "/tmp/tmpk3v9.wav");
         Print timeout_line] /\
      disk s = binary_only
  | None => False
  end.
Proof.
  destruct (run resample_hold fill_short cast_zero text_of
              [CallStart; OpenStream; Callback four_frames; TestRunning; GetChunk;
               Finish env_timeout; TestRunning]
              (boot slow_self binary_only true)) as [s|] eqn:Hrun.
  - assert (Hreach : reachable resample_hold fill_short cast_zero text_of
                       (boot slow_self binary_only true) s).
    { eapply run_reachable; [exact Hrun | apply reach_refl]. }
    assert (Hidle : is_busy (processing_thread (obj s)) = false).
    { vm_compute in Hrun. injection Hrun as <-. reflexivity. }
    assert (Hio : worker_io (history s) =
                  [WavWrite "/tmp/tmpk3v9.wav" 2 [8191; 8191];
                   Run (whisper_cmd slow_self "/tmp/tmpk3v9.wav");
                   Print timeout_line]).
    { vm_compute in Hrun. injection Hrun as <-. reflexivity. }
    split; [exact Hreach|]. split; [exact Hidle|]. split; [exact Hio|].
    exact (disk_is_restored resample_hold fill_short cast_zero text_of slow_self
             binary_only true s Hreach Hidle).
  - vm_compute in Hrun. discriminate Hrun.
Defined.

Lemma quantize_is_odd_witness :
  f32_valid quarter = true /\
  in_unit_range quarter = true /\
  astype_int16 cast_zero (f32_mul (SFopp quarter) (f32_of_int 32767)) =
  - astype_int16 cast_zero (f32_mul quarter (f32_of_int 32767)) /\
  -32767 <= astype_int16 cast_zero (f32_mul (SFopp quarter) (f32_of_int 32767)) <= 32767.
Proof.
  split; [reflexivity|]. split; [reflexivity|].
  apply (quantize_is_odd cast_zero quarter); reflexivity.
Defined.

Lemma whole_ratio_sample_count_witness :
  0 < sample_rate slow_self /\
  Z.of_nat (length (flatten four_frames)) * target_sample_rate slow_self =
    2 * sample_rate slow_self /\
  num_samples slow_self (flatten four_frames) = inr 2 /\
  exists pcm,
    resample_and_quantize resample_hold cast_zero slow_self four_frames = inr pcm /\
    Z.of_nat (length pcm) = 2.
Proof.
  split; [reflexivity|]. split; [reflexivity|].
  apply (whole_ratio_sample_count resample_hold cast_zero resample_hold_length slow_self
           four_frames 2); [reflexivity | reflexivity | split; reflexivity].
Defined.




(** C1, as written, fails: the engine ends with exit status 1, the chunk
    is dropped, and nothing at all is printed. *)
Lemma bad_exit_status_is_not_logged :
  recognition_fails env_bad_exit = true /\
  let o := loop_body resample_hold fill_short cast_zero text_of slow_self env_bad_exit
             (inr four_frames) ∅ in
  result o = Ok tt /\
  effects o =
    [WavWrite "/tmp/tmpk3v9.wav" 2 [8191; 8191];
     Run (whisper_cmd slow_self "/tmp/tmpk3v9.wav")] /\
  ~ (exists text, In (Print text) (effects o)).
Proof.
  split; [reflexivity|]. cbv zeta.
  assert (He : effects (loop_body resample_hold fill_short cast_zero text_of slow_self env_bad_exit
                          (inr four_frames) ∅) =
               [WavWrite "/tmp/tmpk3v9.wav" 2 [8191; 8191];
                Run (whisper_cmd slow_self "/tmp/tmpk3v9.wav")])
    by (vm_compute; reflexivity).
  split; [vm_compute; reflexivity|]. split; [exact He|].
  rewrite He. intros [text [H|[H|[]]]]; discriminate H.
Qed.


(** C8, as written, fails: with a sound device that cannot be opened,
    [start] still sets the running flag; the recording thread ends and the
    flag stays set. *)
Lemma running_without_device :
  match run resample_hold fill_short cast_zero text_of [CallStart; OpenStream]
          (boot slow_self ∅ false) with
  | Some s =>
      reachable resample_hold fill_short cast_zero text_of (boot slow_self ∅ false) s /\
      device_available s = false /\
      is_running (obj s) = true /\
      recording_thread (obj s) = Some RecExited
  | None => False
  end.
Proof.
  destruct (run resample_hold fill_short cast_zero text_of [CallStart; OpenStream]
              (boot slow_self ∅ false)) as [s|] eqn:Hrun.
  - split; [eapply run_reachable; [exact Hrun | apply reach_refl]|].
    vm_compute in Hrun. injection Hrun as <-. repeat split.
  - vm_compute in Hrun. discriminate Hrun.
Qed.
